(** * MLCCM: mesh generation and streaming RBF resampling

    A shallow embedding of [src/mesh_interp.py] and [src/reverse_interp.py].

    Numbers are IEEE binary64 values, as in Python and numpy: the model uses
    Rocq's primitive floats, so every geometric test below computes exactly
    what the Python expression computes.  The file system is a finite map
    from paths to lists of lines, the console a list of messages.  The
    libraries the scripts call (scipy's [Rbf], sklearn's scores, the text
    form of a float, [os.path]) are not part of the repository: they are the
    fields of a record [Lib] that every job takes as its first argument. *)

From Stdlib Require Import ZArith QArith Qabs List Bool Floats Uint63.
From stdpp Require Import base option list gmap strings pretty.

#[local] Set Warnings "-inexact-float".
#[local] Open Scope Z_scope.

(** ** Python exceptions and outcomes *)

Inductive exn : Type :=
  | IndexError
  | ValueError
  | StopIteration
  | FileNotFoundError
  | EmptyDataError
  | LibError.

(** The result of an expression that may raise. *)
Inductive result (A : Type) : Type :=
  | Ok (a : A)
  | Err (e : exn).
Arguments Ok {A} a.
Arguments Err {A} e.

#[global] Instance result_ret : MRet result := λ A a, Ok a.
#[global] Instance result_bind : MBind result := λ A B f m,
  match m with
  | Ok a => f a
  | Err e => Err e
  end.

(** The result of a call: a value, an exception that escapes, or
    [exit(code)]. *)
Inductive outcome (A : Type) : Type :=
  | Return (a : A)
  | Raise (e : exn)
  | Exit (code : Z).
Arguments Return {A} a.
Arguments Raise {A} e.
Arguments Exit {A} code.

(** [row[i]] on a Python list, for an index that is never negative. *)
Definition idx {A : Type} (row : list A) (i : nat) : result A :=
  match row !! i with
  | Some a => Ok a
  | None => Err IndexError
  end.

(** ** numpy on binary64 *)

Definition of_Z (z : Z) : float := PrimFloat.of_uint63 (Uint63.of_Z z).

Definition DBL_MAX : float := 0x1.fffffffffffffp+1023%float.

(** [np.nan_to_num] with its default arguments: NaN becomes 0.0, positive
    infinity the largest finite double, negative infinity the most negative
    one; every other value is returned as it is. *)
Definition nan_to_num1 (v : float) : float :=
  if PrimFloat.is_nan v then 0%float
  else if PrimFloat.is_infinity v then
    (if (v <? 0)%float then (- DBL_MAX)%float else DBL_MAX)
  else v.

(** [np.nan_to_num] on an array: elementwise. *)
Definition nan_to_num (a : list float) : list float := nan_to_num1 <$> a.

(** [np.linspace(start, stop, num)] with [endpoint=True], following numpy's
    implementation: [arange(0, num) * step + start], the last sample
    overwritten by [stop].  A negative [num] raises [ValueError]. *)
Definition linspace (start stop : float) (num : Z) : result (list float) :=
  if num <? 0 then Err ValueError
  else
    let div := num - 1 in
    let delta := (stop - start)%float in
    let y := of_Z <$> seqZ 0 num in
    let y :=
      if 0 <? div then
        let step := (delta / of_Z div)%float in
        if (step =? 0)%float
        then (λ v, v / of_Z div * delta)%float <$> y
        else (λ v, v * step)%float <$> y
      else (λ v, v * delta)%float <$> y in
    let y := (λ v, v + start)%float <$> y in
    Ok (if 1 <? num then <[Nat.pred (length y) := stop]> y else y).

(** [np.column_stack([xx.flatten(), yy.flatten()])] for
    [xx, yy = np.meshgrid(x, y)]: row-major, [y] outermost. *)
Definition meshgrid_points (x y : list float) : list (float * float) :=
  flat_map (λ yv, (λ xv, (xv, yv)) <$> x) y.

(** [bool(a == None)] for a numpy array [a]: the comparison is elementwise
    and gives an array of [False] of the same size.  Its truth value is that
    of its element when there is one and raises [ValueError] when there are
    more.  For an array without elements numpy up to 2.1 answers [False]
    with a deprecation warning, which is what is written here; later
    releases raise.  The configured grids never give such an array. *)
Definition array_eq_None_truth (a : list float) : result bool :=
  match a with
  | [] | [_] => Ok false
  | _ => Err ValueError
  end.

(** ** Tables on disk *)

(** A cell of a table that pandas writes: text copied from a csv file, a
    float, an integer, or the missing value of a ragged frame. *)
Inductive cell : Type :=
  | CStr (s : string)
  | CNum (v : float)
  | CInt (z : Z)
  | CNone.

(** A line of a csv file, by the write that produced it. *)
Inductive line : Type :=
  | HeaderLine (cols : list string)
  | DataLine (cells : list cell).

Definition dict : Type := list (string * cell).

Inductive msg : Type :=
  | ErrMeshGrid
  | ErrInterp (e : exn)
  | NoInterpFile
  | Scores (method : string) (grid : Z) (r2 mae mape : float)
  | Finished (fname : string)
  | MetricsSaved (path : string)
  | TotalElapsed.

Record world : Type := World {
  files : gmap string (list line);
  console : list msg
}.

Definition say (m : msg) (fs : gmap string (list line)) (w : world) : world :=
  {| files := fs; console := console w ++ [m] |}.

(** What the scripts take from scipy, sklearn, numpy's parser and printer,
    [os.path] and the clock. *)
Record Lib : Type := {
  (** one entry of [np.array(strings, dtype=float)] *)
  float_of_string : string → result float;
  (** [Rbf(xs, ys, values, function=method)]; the interpolant is then
      called on the destination coordinates *)
  Rbf : list float → list float → list float → string →
        result (list float → list float → result (list float));
  (** the text pandas writes for a float *)
  string_of_float : float → string;
  (** [r2_score], [mean_absolute_error] and
      [mean_absolute_percentage_error] of two tables read by [pd.read_csv] *)
  scores : list line → list line → result (float * float * float);
  (** [os.path.splitext(os.path.basename(p))[0]] *)
  stem : string → string;
  (** [os.path.join] *)
  join : string → string → string;
  (** [time.time() - start_time] at the end of a job *)
  elapsed_time : string → Z → string → float
}.

(** scipy's interpolant returns one value per destination point. *)
Definition Rbf_shape_ok (L : Lib) : Prop :=
  ∀ xs ys vs method f tx ty r,
    Rbf L xs ys vs method = Ok f → f tx ty = Ok r → length r = length tx.

Record config : Type := {
  DATA : string;
  INT_P : string;
  X_TRAIN : string;
  X_TEST : string;
  METRICS : string;
  REV_METRICS : string
}.

Definition GRIDS : list Z := [20; 30; 40].
Definition METHODS : list string := ["linear"; "cubic"; "multiquadric"].
Definition BUFF_TSHOLD : nat := 100.

Definition isfile (fs : gmap string (list line)) (path : string) : bool :=
  bool_decide (is_Some (fs !! path)).

Definition remove_if_present (fs : gmap string (list line)) (path : string)
  : gmap string (list line) :=
  if isfile fs path then delete path fs else fs.

(** [pd.DataFrame(rows)] for a list of lists: as many columns as the longest
    row, shorter rows filled with missing values; the columns are labelled
    0, 1, 2, ... *)
Definition frame_width (rows : list (list cell)) : nat :=
  max_list (length <$> rows).
Definition DataFrame (rows : list (list cell)) : list (list cell) :=
  (λ r, r ++ replicate (frame_width rows - length r) CNone) <$> rows.
Definition columns (rows : list (list cell)) : list string :=
  pretty <$> seq 0 (frame_width rows).

(** [frame.to_csv(path, mode="a", header=header, index=False)]: the file is
    created when absent; an empty frame without header appends nothing. *)
Definition to_csv (fs : gmap string (list line)) (path : string)
    (cols : list string) (frame : list (list cell)) (header : bool)
  : gmap string (list line) :=
  <[path := default [] (fs !! path)
            ++ (if header then [HeaderLine cols] else [])
            ++ (DataLine <$> frame)]> fs.

Definition show_cell (L : Lib) (c : cell) : string :=
  match c with
  | CStr s => s
  | CNum v => string_of_float L v
  | CInt z => pretty z
  | CNone => ""
  end.

(** The fields [csv.reader] yields for a line. *)
Definition csv_fields (L : Lib) (l : line) : list string :=
  match l with
  | HeaderLine cols => cols
  | DataLine cells => show_cell L <$> cells
  end.

(** [open(path)] then [csv.reader(file)]. *)
Definition open_reader (L : Lib) (fs : gmap string (list line)) (path : string)
  : result (list (list string)) :=
  match fs !! path with
  | None => Err FileNotFoundError
  | Some lines => Ok (csv_fields L <$> lines)
  end.

(** [next(reader)]: the remaining rows, the first one dropped. *)
Definition next {A : Type} (reader : list A) : result (list A) :=
  match reader with
  | [] => Err StopIteration
  | _ :: rest => Ok rest
  end.

(** ** One record: twenty timestep blocks *)

(** [for i in range(i0, i0 + n_el*3, 3)]: the three deformation columns of
    a block. *)
Fixpoint gather (row : list string) (i n_el : nat)
  : result (list string * list string * list string) :=
  match n_el with
  | O => Ok ([], [], [])
  | S n =>
    a ← idx row i;
    b ← idx row (i + 1)%nat;
    c ← idx row (i + 2)%nat;
    '(def_x, def_y, def_xy) ← gather row (i + 3)%nat n;
    Ok (a :: def_x, b :: def_y, c :: def_xy)
  end.

(** [for i in range(0, len(gx))]: append [gx[i]], [gy[i]], [gxy[i]]. *)
Fixpoint interleave (i n : nat) (gx gy gxy : list float) : result (list cell) :=
  match n with
  | O => Ok []
  | S n' =>
    a ← idx gx i;
    b ← idx gy i;
    c ← idx gxy i;
    rest ← interleave (S i) n' gx gy gxy;
    Ok (CNum a :: CNum b :: CNum c :: rest)
  end.

(** The body of [for j in range(0, 20)], for a record of [n_el] source
    elements: what it appends to [bf].  [(sx, sy)] are the coordinates the
    interpolants are built on, [(tx, ty)] those they are evaluated at. *)
Definition timestep_block (L : Lib) (n_el : nat) (method : string)
    (sx sy tx ty : list float) (row : list string) (j : nat)
  : result (list cell) :=
  let c := (j * n_el * 3 + j * 2)%nat in
  x_force ← idx row c;
  y_force ← idx row (c + 1)%nat;
  '(def_x, def_y, def_xy) ← gather row (c + 2)%nat n_el;
  def_x ← mapM (float_of_string L) def_x;
  def_y ← mapM (float_of_string L) def_y;
  def_xy ← mapM (float_of_string L) def_xy;
  rbf_def_x ← Rbf L sx sy def_x method;
  rbf_def_y ← Rbf L sx sy def_y method;
  rbf_def_xy ← Rbf L sx sy def_xy method;
  grid_def_x ← rbf_def_x tx ty;
  grid_def_y ← rbf_def_y tx ty;
  grid_def_xy ← rbf_def_xy tx ty;
  let grid_def_x := nan_to_num grid_def_x in
  let grid_def_y := nan_to_num grid_def_y in
  let grid_def_xy := nan_to_num grid_def_xy in
  body ← interleave 0 (length grid_def_x) grid_def_x grid_def_y grid_def_xy;
  Ok (CStr x_force :: CStr y_force :: body).

(** [for j in range(j, j + k)], appending to [bf]. *)
Fixpoint timesteps (block : nat → result (list cell)) (j k : nat)
    (bf : list cell) : result (list cell) :=
  match k with
  | O => Ok bf
  | S k' => b ← block j; timesteps block (S j) k' (bf ++ b)
  end.

Definition transform_row (L : Lib) (n_el : nat) (method : string)
    (sx sy tx ty : list float) (row : list string) : result (list cell) :=
  timesteps (timestep_block L n_el method sx sy tx ty row) 0 20 [].

(** ** The streaming loop *)

(** [for k, row in enumerate(reader, start=1)]: the batch [bg_bf] and the
    file system after the loop, or the exception that stopped it (what was
    flushed before stays on disk). *)
Fixpoint stream (transform : list string → result (list cell)) (path : string)
    (rows : list (list string)) (bg_bf : list (list cell))
    (fs : gmap string (list line))
  : result (list (list cell)) * gmap string (list line) :=
  match rows with
  | [] => (Ok bg_bf, fs)
  | row :: rest =>
    match transform row with
    | Err e => (Err e, fs)
    | Ok bf =>
      let bg_bf := bg_bf ++ [bf] in
      if (length bg_bf =? BUFF_TSHOLD)%nat && negb (isfile fs path) then
        stream transform path rest []
          (to_csv fs path (columns bg_bf) (DataFrame bg_bf) true)
      else if (length bg_bf =? BUFF_TSHOLD)%nat && isfile fs path then
        stream transform path rest []
          (to_csv fs path (columns bg_bf) (DataFrame bg_bf) false)
      else stream transform path rest bg_bf fs
    end
  end.

(** The write after the loop: [pd.DataFrame(bg_bf).to_csv(.., header=False)]. *)
Definition final_flush (fs : gmap string (list line)) (path : string)
    (bg_bf : list (list cell)) : gmap string (list line) :=
  to_csv fs path (columns bg_bf) (DataFrame bg_bf) false.

(** [pd.DataFrame([result]).to_csv(metrics, mode="a", header=write_header)]
    with [write_header = not os.path.exists(metrics)]. *)
Definition append_metrics (fs : gmap string (list line)) (metrics : string)
    (result : dict) : gmap string (list line) :=
  to_csv fs metrics (result.*1) [result.*2] (negb (isfile fs metrics)).

(** [if result:] on [None] or a dict. *)
Definition truthy (result : option dict) : bool :=
  match result with
  | Some (_ :: _) => true
  | _ => false
  end.

(** The three nested loops of [main], over the jobs in order. *)
Fixpoint sweep (job : string → Z → string → world → outcome (option dict) * world)
    (metrics : string) (jobs : list (Z * string * string)) (w : world)
  : outcome unit * world :=
  match jobs with
  | [] => (Return (), w)
  | (grid, method, file) :: rest =>
    match job file grid method w with
    | (Return result, w) =>
      if truthy result then
        sweep job metrics rest
          (say (MetricsSaved metrics)
               (append_metrics (files w) metrics (default [] result)) w)
      else sweep job metrics rest w
    | (Raise e, w) => (Raise e, w)
    | (Exit code, w) => (Exit code, w)
    end
  end.

Definition jobs_of (in_files : list string) : list (Z * string * string) :=
  grid ← GRIDS; method ← METHODS; file ← in_files; [(grid, method, file)].

(** The centroid file: first and second column of every row, as floats. *)
Definition read_centroids (L : Lib) (fs : gmap string (list line))
    (path : string) : result (list float * list float) :=
  reader ← open_reader L fs path;
  xy ← mapM (λ row, a ← idx row 0%nat; b ← idx row 1%nat; Ok (a, b)) reader;
  x ← mapM (float_of_string L) (xy.*1);
  y ← mapM (float_of_string L) (xy.*2);
  Ok (x, y).

(** [pd.read_csv(path)]: the lines of an existing file; a file without a
    line has no columns to parse and raises [EmptyDataError]. *)
Definition read_csv (fs : gmap string (list line)) (path : string)
  : result (list line) :=
  match fs !! path with
  | None => Err FileNotFoundError
  | Some [] => Err EmptyDataError
  | Some lines => Ok lines
  end.

(** ** [mesh_interp.py] *)

Module mesh_interp.
#[local] Open Scope float_scope.

Definition IN_FILES (cfg : config) : list string := [X_TRAIN cfg; X_TEST cfg].

Definition sq (v : float) : float := v * v.

Definition in_main_square (p : float * float) : bool :=
  (0 <=? p.1) && (p.1 <=? 30) && (0 <=? p.2) && (p.2 <=? 30).
Definition out_excluded_square (p : float * float) : bool :=
  negb ((15 <? p.1) && (p.1 <=? 30) && (15 <? p.2) && (p.2 <=? 30)).
Definition out_excluded_circle (p : float * float) : bool :=
  49 <=? sq (p.1 - 15) + sq (p.2 - 15).
Definition in_fillet_circ_1 (p : float * float) : bool :=
  sq (p.1 - 12.5) + sq (p.2 - 24.17) <=? 6.25.
Definition in_fillet_circ_2 (p : float * float) : bool :=
  sq (p.1 - 24.17) + sq (p.2 - 12.5) <=? 6.25.
Definition out_square_1 (p : float * float) : bool :=
  (13.16 <? p.1) && (p.1 <? 15) && (21.75 <? p.2) && (p.2 <? 24.17).
Definition out_square_2 (p : float * float) : bool :=
  (21.75 <? p.1) && (p.1 <? 24.17) && (13.16 <? p.2) && (p.2 <? 15).
Definition square_1_cond (p : float * float) : bool :=
  out_square_1 p && in_fillet_circ_1 p.
Definition square_2_cond (p : float * float) : bool :=
  out_square_2 p && in_fillet_circ_2 p.

(** [final_region], after the in-place [|=]. *)
Definition final_region (p : float * float) : bool :=
  (in_main_square p
   && out_excluded_square p
   && out_excluded_circle p
   && negb (out_square_1 p)
   && negb (out_square_2 p))
  || (square_1_cond p || square_2_cond p).

(** The candidate lattice; [None] is the [exit(1)] of the [except]. *)
Definition lattice (n_points : Z) : option (list (float * float)) :=
  match linspace 0 30 n_points, linspace 0 30 n_points with
  | Ok x, Ok y => Some (meshgrid_points x y)
  | _, _ => None
  end.

Definition mesh_gen (n_points : Z) : option (list float * list float) :=
  points ← lattice n_points;
  let valid_points := List.filter final_region points in
  Some (valid_points.*1, valid_points.*2).

#[local] Close Scope float_scope.

(** The real number a binary64 value stands for: sign, mantissa and binary
    exponent of a finite value; nothing for an infinity or a NaN. *)
Definition real_value (v : float) : option Q :=
  match Prim2SF v with
  | S754_zero _ => Some 0%Q
  | S754_finite s m e =>
    Some ((if s then -1 else 1) * (Zpos m # 1) * Qpower (2 # 1) e)%Q
  | S754_infinity _ | S754_nan => None
  end.


#[local] Open Scope Q_scope.



#[local] Close Scope Q_scope.




(** [f"{bname}_{grid}_{method}.csv"] and its place under [DATA]. *)
Definition fname (L : Lib) (infile : string) (grid : Z) (method : string)
  : string :=
  let bname := stem L infile in
  bname +:+ "_" +:+ pretty grid +:+ "_" +:+ method +:+ ".csv".
Definition new_fname (L : Lib) (cfg : config) (infile : string) (grid : Z)
    (method : string) : string :=
  join L (DATA cfg) (fname L infile grid method).

(** [interpolator]: every record is sliced with the constant 564. *)
Definition interpolator (L : Lib) (cfg : config) (infile : string)
    (grid : Z) (method : string) (x y : list float) (w : world)
  : outcome (option dict) * world :=
  let fname := fname L infile grid method in
  let new_fname := new_fname L cfg infile grid method in
  let fs := remove_if_present (files w) new_fname in
  match mesh_gen grid with
  | None => (Exit 1, say ErrMeshGrid fs w)
  | Some (grid_x, grid_y) =>
    match open_reader L fs infile ≫= next with
    | Err e => (Exit 1, say (ErrInterp e) fs w)
    | Ok reader =>
      match stream (transform_row L 564 method x y grid_x grid_y)
                   new_fname reader [] fs with
      | (Err e, fs) => (Exit 1, say (ErrInterp e) fs w)
      | (Ok bg_bf, fs) =>
        let fs := final_flush fs new_fname bg_bf in
        (Return (Some [("grid", CInt grid);
                       ("method", CStr method);
                       ("file", CStr (stem L infile));
                       ("interpolation_duration",
                        CNum (elapsed_time L infile grid method))]),
         say (Finished fname) fs w)
      end
    end
  end.

Definition main (L : Lib) (cfg : config) (w : world) : outcome unit * world :=
  let fs := remove_if_present (files w) (METRICS cfg) in
  let w := {| files := fs; console := console w |} in
  match read_centroids L fs (INT_P cfg) with
  | Err e => (Raise e, w)
  | Ok (x, y) =>
    match sweep (λ file grid method, interpolator L cfg file grid method x y)
                (METRICS cfg) (jobs_of (IN_FILES cfg)) w with
    | (Return _, w) => (Return (), say TotalElapsed (files w) w)
    | stopped => stopped
    end
  end.
End mesh_interp.

(** ** [reverse_interp.py] *)

Module reverse_interp.
Import mesh_interp.

Definition IN_FILES (cfg : config) : list string := [X_TRAIN cfg].

(** [int((len(row)/20-2)/3)]: the float quotient truncated towards zero.
    In exact arithmetic this is the truncation of [(len - 40) / 60]; the
    rounding of the three float operations is far below the distance
    [1/60] between two possible values, so both agree for every row a
    file can hold. *)
Definition n_el_of (row : list string) : nat :=
  Z.to_nat (Z.quot (Z.of_nat (length row) - 40) 60).

(** [f"{bname}_{grid}_{method}_inv.csv"] and its place under [DATA]. *)
Definition fname_inv (L : Lib) (infile : string) (grid : Z) (method : string)
  : string :=
  let bname := stem L infile in
  bname +:+ "_" +:+ pretty grid +:+ "_" +:+ method +:+ "_inv.csv".
Definition new_fname_inv (L : Lib) (cfg : config) (infile : string)
    (grid : Z) (method : string) : string :=
  join L (DATA cfg) (fname_inv L infile grid method).

(** [inv_interpolator]: from the grid back to the centroids. *)
Definition inv_interpolator (L : Lib) (cfg : config) (infile : string)
    (grid : Z) (method : string) (x y : list float) (w : world)
  : outcome (option dict) * world :=
  let new_fname := new_fname L cfg infile grid method in
  let fname_inv := fname_inv L infile grid method in
  let new_fname_inv := new_fname_inv L cfg infile grid method in
  let fs := remove_if_present (files w) new_fname_inv in
  if negb (isfile fs new_fname) then (Return None, say NoInterpFile fs w)
  else
    match mesh_gen grid with
    | None => (Exit 1, say ErrMeshGrid fs w)
    | Some (grid_x, grid_y) =>
      match array_eq_None_truth grid_x with
      | Err e => (Raise e, {| files := fs; console := console w |})
      | Ok true => (Return None, {| files := fs; console := console w |})
      | Ok false =>
        match open_reader L fs new_fname ≫= next with
        | Err e => (Raise e, {| files := fs; console := console w |})
        | Ok reader =>
          match stream (λ row, transform_row L (n_el_of row) method
                                 grid_x grid_y x y row)
                       new_fname_inv reader [] fs with
          | (Err e, fs) => (Raise e, {| files := fs; console := console w |})
          | (Ok bg_bf, fs) =>
            let fs := final_flush fs new_fname_inv bg_bf in
            match (ori ← read_csv fs infile;
                   predict ← read_csv fs new_fname_inv;
                   scores L ori predict) with
            | Err e => (Raise e, {| files := fs; console := console w |})
            | Ok (r2, mae, mape) =>
              (Return (Some [("grid", CInt grid);
                             ("method", CStr method);
                             ("r2", CNum r2);
                             ("mae", CNum mae);
                             ("mape", CNum mape)]),
               say (Finished fname_inv) fs
                   (say (Scores method grid r2 mae mape) fs w))
            end
          end
        end
      end
    end.

Definition main (L : Lib) (cfg : config) (w : world) : outcome unit * world :=
  let fs := remove_if_present (files w) (REV_METRICS cfg) in
  let w := {| files := fs; console := console w |} in
  match read_centroids L fs (INT_P cfg) with
  | Err e => (Raise e, w)
  | Ok (x, y) =>
    match sweep (λ file grid method, inv_interpolator L cfg file grid method x y)
                (REV_METRICS cfg) (jobs_of (IN_FILES cfg)) w with
    | (Return _, w) => (Return (), say TotalElapsed (files w) w)
    | stopped => stopped
    end
  end.
End reverse_interp.

(** ** Reading tables back *)

Definition content (fs : gmap string (list line)) (path : string) : list line :=
  default [] (fs !! path).

(** The rows of a table as the scripts read one: [next(reader)] and
    [pd.read_csv] take the first line for the header, whatever it holds. *)
Definition table_rows (ls : list line) : list line := tail ls.

Definition data_cells (ls : list line) : list (list cell) :=
  omap (λ l, match l with DataLine c => Some c | HeaderLine _ => None end) ls.

Definition header_lines (ls : list line) : list (list string) :=
  omap (λ l, match l with HeaderLine c => Some c | DataLine _ => None end) ls.

Definition finite_cell (c : cell) : Prop :=
  match c with
  | CNum v => PrimFloat.is_finite v = true
  | _ => True
  end.

(** The force pair of every timestep sits where the transformer reads it
    in the input row (blocks of [2 + 3 * n_el] fields) and where it writes
    it in the output record (blocks of [2 + 3 * n_dest] fields). *)
Definition force_pair_copied (n_el n_dest : nat) (row : list string)
    (bf : list cell) : Prop :=
  ∀ j : nat, (j < 20)%nat →
    ∃ x_force y_force,
      row !! (j * n_el * 3 + j * 2)%nat = Some x_force
      ∧ row !! (j * n_el * 3 + j * 2 + 1)%nat = Some y_force
      ∧ bf !! (j * (2 + 3 * n_dest))%nat = Some (CStr x_force)
      ∧ bf !! (j * (2 + 3 * n_dest) + 1)%nat = Some (CStr y_force).

(** The sanitising rule as the specification words it: whatever the
    interpolant returns, a value that is not finite comes back as 0. *)
Definition nonfinite_replaced_by_zero : Prop :=
  ∀ (L : Lib) xs ys vs method f tx ty raw (i : nat) v,
    Rbf L xs ys vs method = Ok f → f tx ty = Ok raw →
    raw !! i = Some v → PrimFloat.is_finite v = false →
    nan_to_num raw !! i = Some 0%float.


(** The three sample points as the specification words them. *)
Definition sample_points_as_stated : Prop :=
  mesh_interp.final_region (5, 5)%float = true
  ∧ mesh_interp.final_region (20, 20)%float = false
  ∧ mesh_interp.out_square_1 (12.5, 24.17)%float = true
  ∧ mesh_interp.square_1_cond (12.5, 24.17)%float = true.

(** ** A small library instance and two runs

    A stand-in for the libraries, used to run the jobs on concrete tables:
    the parser knows a few literals, the interpolant takes the first source
    value everywhere, paths are joined with a slash. *)

Module demo.
Definition parse_float (s : string) : result float :=
  if decide (s = "0") then Ok 0%float
  else if decide (s = "1") then Ok 1%float
  else if decide (s = "inf") then Ok infinity
  else if decide (s = "nan") then Ok nan
  else Err ValueError.

Definition first_value_Rbf (xs ys vs : list float) (method : string)
  : result (list float → list float → result (list float)) :=
  match vs with
  | [] => Err LibError
  | v :: _ => Ok (λ tx ty, Ok (replicate (length tx) v))
  end.

Definition show_float (v : float) : string :=
  if (v =? 0)%float then "0.0"
  else if (v =? 1)%float then "1.0"
  else if PrimFloat.is_nan v then "nan"
  else "inf".

Definition lib : Lib := {|
  float_of_string := parse_float;
  Rbf := first_value_Rbf;
  string_of_float := show_float;
  scores := λ _ _, Ok (1%float, 0%float, 0%float);
  stem := id;
  join := λ a b, a +:+ "/" +:+ b;
  elapsed_time := λ _ _ _, 0%float
|}.

Definition cfg : config := {|
  DATA := "data";
  INT_P := "centroids.csv";
  X_TRAIN := "x_train";
  X_TEST := "x_test";
  METRICS := "interp_metrics.csv";
  REV_METRICS := "rev_interp_metrics.csv"
|}.

(** A forward input table: a header and one run of 564 elements. *)
Definition run_564 : list cell := replicate (20 * (2 + 3 * 564)) (CStr "1").
Definition forward_world : world := {|
  files := {[ "x_train" := [HeaderLine []; DataLine run_564] ]};
  console := []
|}.

(** A forward output for the one-point grid: a header and one run. *)
Definition run_1 : list cell := replicate (20 * (2 + 3 * 1)) (CStr "1").
Definition inverse_world : world := {|
  files := {[ "x_train" := [HeaderLine []; DataLine run_564];
              "data/x_train_1_linear.csv" := [HeaderLine []; DataLine run_1] ]};
  console := []
|}.

Definition centroids_x : list float := [1%float; 2%float].
Definition centroids_y : list float := [3%float; 4%float].

(** A forward input table whose one run has two elements. *)
Definition run_2 : list cell := replicate (20 * (2 + 3 * 2)) (CStr "1").
Definition short_world : world := {|
  files := {[ "x_train" := [HeaderLine []; DataLine run_2] ]};
  console := []
|}.

(** A forward output for the 20 x 20 grid. *)
Definition grid20_world : world := {|
  files := {[ "x_train" := [HeaderLine []; DataLine run_564];
              "data/x_train_20_linear.csv" := [HeaderLine []; DataLine run_1] ]};
  console := []
|}.

(** The 20 x 20 grid. *)
Definition grid_x : list float := (default ([], []) (mesh_interp.mesh_gen 20)).1.
Definition grid_y : list float := (default ([], []) (mesh_interp.mesh_gen 20)).2.

Definition forward_run : outcome (option dict) * world :=
  mesh_interp.interpolator lib cfg "x_train" 20 "linear"
    centroids_x centroids_y forward_world.
Definition forward_result : dict :=
  [("grid", CInt 20); ("method", CStr "linear"); ("file", CStr "x_train");
   ("interpolation_duration", CNum 0%float)].

Definition inverse_run : outcome (option dict) * world :=
  reverse_interp.inv_interpolator lib cfg "x_train" 1 "linear"
    centroids_x centroids_y inverse_world.
Definition inverse_result : dict :=
  [("grid", CInt 1); ("method", CStr "linear"); ("r2", CNum 1%float);
   ("mae", CNum 0%float); ("mape", CNum 0%float)].
End demo.

(** ** Further runs of the stand-in library *)

Module scenarios.
(** A forward input table of exactly one full batch of records. *)
Definition batch_world : world := {|
  files := {[ "x_train" := HeaderLine []
                           :: replicate 100 (DataLine demo.run_564) ]};
  console := []
|}.
Definition batch_run : outcome (option dict) * world :=
  mesh_interp.interpolator demo.lib demo.cfg "x_train" 20 "linear"
    demo.centroids_x demo.centroids_y batch_world.

(** A forward input table whose second record is too short. *)
Definition failing_world : world := {|
  files := {[ "x_train" := [HeaderLine []; DataLine demo.run_564;
                            DataLine demo.run_2] ]};
  console := []
|}.


(** The one-record table through the one-point grid and back. *)
Definition forward_run_1 : outcome (option dict) * world :=
  mesh_interp.interpolator demo.lib demo.cfg "x_train" 1 "linear"
    demo.centroids_x demo.centroids_y demo.forward_world.
Definition round_trip_1 : outcome (option dict) * world :=
  reverse_interp.inv_interpolator demo.lib demo.cfg "x_train" 1 "linear"
    demo.centroids_x demo.centroids_y forward_run_1.2.

(** A world for the whole forward sweep: two centroids, a training table,
    no test table. *)
Definition sweep_world : world := {|
  files := {[ "centroids.csv" := [DataLine [CStr "0"; CStr "1"];
                                  DataLine [CStr "1"; CStr "0"]];
              "x_train" := [HeaderLine []; DataLine demo.run_564] ]};
  console := []
|}.
Definition forward_sweep : outcome unit * world :=
  mesh_interp.main demo.lib demo.cfg sweep_world.
Definition inverse_sweep : outcome unit * world :=
  reverse_interp.main demo.lib demo.cfg sweep_world.
End scenarios.

(** * Properties *)

(** ** Geometry *)

Section Geometry.
Import mesh_interp.



Lemma linspace_length (start stop : float) (num : Z) (y : list float) :
  linspace start stop num = Ok y → length y = Z.to_nat num.
Proof.
  unfold linspace. destruct (num <? 0); [discriminate |].
  intros [= <-].
  destruct (1 <? num); rewrite ?length_insert, length_fmap;
    destruct (0 <? num - 1); try destruct (_ =? _)%float;
    by rewrite length_fmap, length_fmap, length_seqZ.
Qed.

Lemma meshgrid_points_length (x y : list float) :
  length (meshgrid_points x y) = (length y * length x)%nat.
Proof.
  unfold meshgrid_points. apply flat_map_constant_length.
  intros yv _. apply length_fmap.
Qed.







(** [real_value] on a few values: 12.5 and 30 are the numbers they are
    written as, 24.17 is not. *)
Lemma real_value_samples :
  from_option (Qeq_bool (25 # 2)) false (real_value 12.5%float) = true
  ∧ from_option (Qeq_bool 30) false (real_value 30%float) = true
  ∧ from_option (Qeq_bool (-3)) false (real_value (-3)%float) = true
  ∧ from_option (Qeq_bool (2417 # 100)) false (real_value 24.17%float) = false.
Proof. vm_compute. repeat split. Qed.

End Geometry.




(** C4, as the specification states it, is false: (12.5, 24.17) is not
    inside cut-out rectangle 1, hence not kept through fillet disk 1. *)
Lemma sample_points_as_stated_false : ¬ sample_points_as_stated.
Proof.
  unfold sample_points_as_stated. intros (_ & _ & Hcut & _).
  vm_compute in Hcut. discriminate.
Qed.

(** C4, amended. Under the mask of the mesh generator (5, 5) is kept and
    (20, 20) is excluded; (12.5, 24.17), the centre of fillet disk 1, is
    kept by the main clause of the predicate: it lies in the main square,
    outside the excluded square, outside the central disk and outside both
    cut-out rectangles. *)
Theorem sample_points_kept_or_excluded :
  mesh_interp.final_region (5, 5)%float = true
  ∧ mesh_interp.final_region (20, 20)%float = false
  ∧ mesh_interp.final_region (12.5, 24.17)%float = true
  ∧ mesh_interp.out_square_1 (12.5, 24.17)%float = false
  ∧ mesh_interp.square_1_cond (12.5, 24.17)%float = false
  ∧ mesh_interp.in_fillet_circ_1 (12.5, 24.17)%float = true
  ∧ (mesh_interp.in_main_square (12.5, 24.17)
     && mesh_interp.out_excluded_square (12.5, 24.17)
     && mesh_interp.out_excluded_circle (12.5, 24.17)
     && negb (mesh_interp.out_square_1 (12.5, 24.17))
     && negb (mesh_interp.out_square_2 (12.5, 24.17)))%float = true.
Proof. vm_compute. repeat split. Qed.

(** ** The error monad *)

Lemma bind_Ok {A B : Type} (m : result A) (f : A → result B) (b : B) :
  m ≫= f = Ok b ↔ ∃ a, m = Ok a ∧ f a = Ok b.
Proof.
  destruct m as [a | e]; simpl; split.
  - eauto.
  - by intros (a' & [= ->] & Hf).
  - discriminate.
  - by intros (a' & [=] & _).
Qed.

Ltac inv_bind H :=
  repeat match type of H with
  | _ ≫= _ = Ok _ =>
    let a := fresh "a" in
    let Ha := fresh "Ha" in
    apply bind_Ok in H as (a & Ha & H);
    try match type of a with
        | (_ * _ * _)%type => destruct a as [[? ?] ?]
        | (_ * _)%type => destruct a as [? ?]
        end
  end.

Lemma idx_Ok {A : Type} (row : list A) (i : nat) (a : A) :
  idx row i = Ok a ↔ row !! i = Some a.
Proof. unfold idx. destruct (row !! i); naive_solver. Qed.

Lemma mapM_Ok_length {A B : Type} (f : A → result B) (l : list A) (k : list B) :
  mapM f l = Ok k → length k = length l.
Proof.
  revert k. induction l as [| a l IH]; intros k H; simpl in H.
  - by injection H as <-.
  - inv_bind H. injection H as <-. simpl. f_equal. by apply IH.
Qed.

(** ** Sanitising *)

Lemma nan_to_num1_finite (v : float) : PrimFloat.is_finite (nan_to_num1 v) = true.
Proof.
  unfold nan_to_num1.
  destruct (PrimFloat.is_nan v) eqn:Hnan; [reflexivity |].
  destruct (PrimFloat.is_infinity v) eqn:Hinf.
  - destruct (v <? 0)%float; reflexivity.
  - unfold PrimFloat.is_finite. by rewrite Hnan, Hinf.
Qed.

Lemma nan_to_num1_id (v : float) :
  PrimFloat.is_finite v = true → nan_to_num1 v = v.
Proof.
  unfold PrimFloat.is_finite, nan_to_num1. intros H.
  apply negb_true_iff, orb_false_iff in H as [-> ->]. done.
Qed.

Lemma nan_to_num_finite (a : list float) :
  Forall (λ v, PrimFloat.is_finite v = true) (nan_to_num a).
Proof.
  unfold nan_to_num. apply Forall_fmap, Forall_forall.
  intros v _. apply nan_to_num1_finite.
Qed.

Lemma length_nan_to_num (a : list float) : length (nan_to_num a) = length a.
Proof. apply length_fmap. Qed.

(** ** Blocks *)

Lemma interleave_Forall (P : float → Prop) (gx gy gxy : list float) :
  Forall P gx → Forall P gy → Forall P gxy →
  ∀ n i body, interleave i n gx gy gxy = Ok body →
    Forall (λ c, match c with CNum v => P v | _ => True end) body.
Proof.
  intros Hx Hy Hxy. induction n as [| n IH]; intros i body H; simpl in H.
  - injection H as <-. constructor.
  - inv_bind H. injection H as <-.
    apply idx_Ok in Ha, Ha0, Ha1.
    repeat constructor; try by eapply IH.
    + eapply Forall_lookup_1 in Hx; eauto.
    + eapply Forall_lookup_1 in Hy; eauto.
    + eapply Forall_lookup_1 in Hxy; eauto.
Qed.

Lemma interleave_length (gx gy gxy : list float) :
  ∀ n i body, interleave i n gx gy gxy = Ok body → length body = (3 * n)%nat.
Proof.
  induction n as [| n IH]; intros i body H; simpl in H.
  - by injection H as <-.
  - inv_bind H. injection H as <-. simpl. erewrite IH by done. lia.
Qed.

(** What a block that is produced consists of. *)
Lemma timestep_block_Ok (L : Lib) (n_el : nat) (method : string)
    (sx sy tx ty : list float) (row : list string) (j : nat) (block : list cell) :
  timestep_block L n_el method sx sy tx ty row j = Ok block →
  ∃ x_force y_force defs vx vy vxy fx fy fxy rx ry rxy body,
    row !! (j * n_el * 3 + j * 2)%nat = Some x_force
    ∧ row !! (j * n_el * 3 + j * 2 + 1)%nat = Some y_force
    ∧ gather row (j * n_el * 3 + j * 2 + 2)%nat n_el = Ok defs
    ∧ Rbf L sx sy vx method = Ok fx ∧ fx tx ty = Ok rx
    ∧ Rbf L sx sy vy method = Ok fy ∧ fy tx ty = Ok ry
    ∧ Rbf L sx sy vxy method = Ok fxy ∧ fxy tx ty = Ok rxy
    ∧ interleave 0 (length (nan_to_num rx))
        (nan_to_num rx) (nan_to_num ry) (nan_to_num rxy) = Ok body
    ∧ block = CStr x_force :: CStr y_force :: body.
Proof.
  unfold timestep_block. intros H. inv_bind H. injection H as <-.
  apply idx_Ok in Ha, Ha0.
  exists a, a0, (l, l0, l1), a1, a2, a3, a4, a5, a6, a7, a8, a9, a10.
  by repeat split.
Qed.

(** C2, as the specification states it, is false: the stand-in interpolant
    evaluates to positive infinity on the source value [inf], and the
    sanitiser turns it into the largest finite double, not into 0. *)
Lemma nonfinite_replaced_by_zero_false : ¬ nonfinite_replaced_by_zero.
Proof.
  intros H.
  specialize (H demo.lib [] [] [infinity] "linear"
                (λ tx ty, Ok (replicate (length tx) infinity))
                [0%float] [0%float] [infinity] 0%nat infinity
                eq_refl eq_refl eq_refl eq_refl).
  assert (Hz : from_option PrimFloat.is_zero false
                 (nan_to_num [infinity] !! 0%nat) = true)
    by (by rewrite H).
  vm_compute in Hz. discriminate.
Qed.

(** C2, amended. A block that the RBF step produces holds no non-finite
    value: the sanitiser replaces NaN by exactly 0, positive infinity by the
    largest finite double and negative infinity by the most negative finite
    double, and returns finite values unchanged. *)
Theorem rbf_step_returns_finite_values (L : Lib) (n_el : nat) (method : string)
    (sx sy tx ty : list float) (row : list string) (j : nat) (block : list cell) :
  timestep_block L n_el method sx sy tx ty row j = Ok block →
  Forall finite_cell block
  ∧ (∀ v, PrimFloat.is_nan v = true → nan_to_num1 v = 0%float)
  ∧ nan_to_num1 infinity = DBL_MAX
  ∧ nan_to_num1 neg_infinity = (- DBL_MAX)%float
  ∧ (∀ v, PrimFloat.is_finite v = true → nan_to_num1 v = v).
Proof.
  intros H. split; [| repeat split].
  - apply timestep_block_Ok in H
      as (xf & yf & defs & vx & vy & vxy & fx & fy & fxy & rx & ry & rxy & body
          & _ & _ & _ & _ & _ & _ & _ & _ & _ & Hbody & ->).
    do 2 (constructor; [done |]).
    eapply (interleave_Forall (λ v, PrimFloat.is_finite v = true)) in Hbody;
      [exact Hbody | apply nan_to_num_finite ..].
  - intros v Hv. unfold nan_to_num1. by rewrite Hv.
  - apply nan_to_num1_id.
Qed.

Lemma rbf_step_returns_finite_values_witness :
  Forall finite_cell
    [CStr "1"; CStr "1"; CNum DBL_MAX; CNum 0%float; CNum 1%float].
Proof.
  apply (rbf_step_returns_finite_values demo.lib 1 "linear"
           [0%float] [0%float] [0%float] [0%float]
           ["1"; "1"; "inf"; "nan"; "1"] 0).
  vm_compute. reflexivity.
Defined.

(** ** Records *)

Lemma gather_Ok_bound (row : list string) :
  ∀ n_el i defs, gather row i n_el = Ok defs →
    n_el = 0%nat ∨ (i + 3 * n_el ≤ length row)%nat.
Proof.
  induction n_el as [| n IH]; intros i defs H; [by left | right].
  simpl in H. inv_bind H.
  apply idx_Ok, lookup_lt_Some in Ha1.
  destruct (IH _ _ Ha2) as [-> | Hle]; lia.
Qed.

Lemma timesteps_Ok (block : nat → result (list cell)) :
  ∀ k j bf out, timesteps block j k bf = Ok out →
    ∃ blocks, length blocks = k
      ∧ (∀ i b, blocks !! i = Some b → block (j + i)%nat = Ok b)
      ∧ out = bf ++ concat blocks.
Proof.
  induction k as [| k IH]; intros j bf out H; simpl in H.
  - injection H as <-. exists []. by rewrite app_nil_r.
  - inv_bind H. destruct (IH _ _ _ H) as (blocks & Hlen & Hblocks & ->).
    exists (a :: blocks). split; [by rewrite <- Hlen |]. split.
    + intros [| i] b Hb; simpl in Hb.
      * injection Hb as <-. by rewrite Nat.add_0_r.
      * rewrite <- Nat.add_succ_comm. by apply Hblocks.
    + simpl. by rewrite <- app_assoc.
Qed.

Lemma concat_uniform_length {A : Type} (B : nat) (blocks : list (list A)) :
  Forall (λ b, length b = B) blocks →
  length (concat blocks) = (length blocks * B)%nat.
Proof.
  induction 1 as [| b blocks Hb _ IH]; simpl; [done |].
  rewrite length_app, IH, Hb. lia.
Qed.

Lemma concat_uniform_lookup {A : Type} (B : nat) (blocks : list (list A)) :
  Forall (λ b, length b = B) blocks →
  ∀ i b o, blocks !! i = Some b → (o < B)%nat →
    concat blocks !! (i * B + o)%nat = b !! o.
Proof.
  induction 1 as [| b0 blocks Hb0 _ IH]; intros i b o Hi Ho; [done |].
  destruct i as [| i]; simpl in *.
  - injection Hi as ->. by rewrite lookup_app_l by lia.
  - rewrite lookup_app_r by lia.
    replace (B + i * B + o - length b0)%nat with (i * B + o)%nat by lia.
    by apply IH.
Qed.

(** With an interpolant that returns one value per destination point, a
    block is the force pair followed by three values per point. *)
Lemma timestep_block_shape (L : Lib) (n_el : nat) (method : string)
    (sx sy tx ty : list float) (row : list string) (j : nat) (block : list cell) :
  Rbf_shape_ok L →
  timestep_block L n_el method sx sy tx ty row j = Ok block →
  length block = (2 + 3 * length tx)%nat
  ∧ ∃ x_force y_force,
      row !! (j * n_el * 3 + j * 2)%nat = Some x_force
      ∧ row !! (j * n_el * 3 + j * 2 + 1)%nat = Some y_force
      ∧ block !! 0%nat = Some (CStr x_force)
      ∧ block !! 1%nat = Some (CStr y_force).
Proof.
  intros Hshape H.
  apply timestep_block_Ok in H
    as (xf & yf & defs & vx & vy & vxy & fx & fy & fxy & rx & ry & rxy & body
        & Hxf & Hyf & _ & Hfx & Hrx & _ & _ & _ & _ & Hbody & ->).
  apply interleave_length in Hbody.
  rewrite length_nan_to_num, (Hshape _ _ _ _ _ _ _ _ Hfx Hrx) in Hbody.
  split; [simpl; lia |]. by exists xf, yf.
Qed.

(** The rows a record transformer accepts are at least as wide as the
    layout it slices. *)
Lemma transform_row_needs_width (L : Lib) (n_el : nat) (method : string)
    (sx sy tx ty : list float) (row : list string) (bf : list cell) :
  transform_row L n_el method sx sy tx ty row = Ok bf →
  (20 * (2 + 3 * n_el) ≤ length row)%nat.
Proof.
  intros H. apply timesteps_Ok in H as (blocks & Hlen & Hblocks & _).
  destruct (lookup_lt_is_Some_2 blocks 19) as [b Hb]; [lia |].
  apply Hblocks, timestep_block_Ok in Hb
    as (xf & yf & defs & vx & vy & vxy & fx & fy & fxy & rx & ry & rxy & body
        & _ & Hyf & Hdefs & _).
  apply lookup_lt_Some in Hyf.
  apply gather_Ok_bound in Hdefs as [-> | Hle]; lia.
Qed.

Lemma transform_row_shape (L : Lib) (n_el : nat) (method : string)
    (sx sy tx ty : list float) (row : list string) (bf : list cell) :
  Rbf_shape_ok L →
  transform_row L n_el method sx sy tx ty row = Ok bf →
  length bf = (20 * (2 + 3 * length tx))%nat
  ∧ force_pair_copied n_el (length tx) row bf.
Proof.
  intros Hshape H. apply timesteps_Ok in H as (blocks & Hlen & Hblocks & ->).
  simpl.
  assert (Hall : Forall (λ b, length b = (2 + 3 * length tx)%nat) blocks).
  { apply Forall_lookup. intros i b Hb.
    by apply Hblocks, timestep_block_shape in Hb as [Hb _]. }
  split; [rewrite (concat_uniform_length _ _ Hall); lia |].
  intros j Hj.
  destruct (lookup_lt_is_Some_2 blocks j) as [b Hb]; [lia |].
  pose proof (Hblocks _ _ Hb) as Hblock. simpl in Hblock.
  apply timestep_block_shape in Hblock
    as (_ & xf & yf & Hxf & Hyf & Hb0 & Hb1); [| done].
  exists xf, yf. repeat split; [done | done | |].
  - replace (j * (2 + 3 * length tx))%nat
      with (j * (2 + 3 * length tx) + 0)%nat by lia.
    rewrite (concat_uniform_lookup _ _ Hall _ _ _ Hb); [done | lia].
  - rewrite (concat_uniform_lookup _ _ Hall _ _ _ Hb); [done | lia].
Qed.

(** ** Files *)

Lemma isfile_true (fs : gmap string (list line)) (p : string) :
  isfile fs p = true ↔ is_Some (fs !! p).
Proof. unfold isfile. apply bool_decide_eq_true. Qed.

Lemma isfile_false (fs : gmap string (list line)) (p : string) :
  isfile fs p = false ↔ fs !! p = None.
Proof.
  unfold isfile. rewrite bool_decide_eq_false. symmetry. apply eq_None_not_Some.
Qed.

Lemma remove_if_present_lookup (fs : gmap string (list line)) (p q : string) :
  remove_if_present fs p !! q = if decide (p = q) then None else fs !! q.
Proof.
  unfold remove_if_present. destruct (isfile fs p) eqn:Hp.
  - rewrite lookup_delete. by repeat case_decide.
  - apply isfile_false in Hp. case_decide; by subst.
Qed.

Lemma lookup_to_csv (fs : gmap string (list line)) (p : string)
    (cols : list string) (frame : list (list cell)) (header : bool) :
  to_csv fs p cols frame header !! p
  = Some (content fs p ++ (if header then [HeaderLine cols] else [])
          ++ (DataLine <$> frame)).
Proof. unfold to_csv. by rewrite lookup_insert_eq. Qed.

Lemma lookup_to_csv_ne (fs : gmap string (list line)) (p q : string)
    (cols : list string) (frame : list (list cell)) (header : bool) :
  q ≠ p → to_csv fs p cols frame header !! q = fs !! q.
Proof. intros Hq. unfold to_csv. by rewrite lookup_insert_ne. Qed.

Lemma data_cells_app (l1 l2 : list line) :
  data_cells (l1 ++ l2) = data_cells l1 ++ data_cells l2.
Proof. apply omap_app. Qed.

Lemma header_lines_app (l1 l2 : list line) :
  header_lines (l1 ++ l2) = header_lines l1 ++ header_lines l2.
Proof. apply omap_app. Qed.

Lemma data_cells_DataLine (rows : list (list cell)) :
  data_cells (DataLine <$> rows) = rows.
Proof.
  induction rows as [| r rows IH]; [done |].
  change (r :: data_cells (DataLine <$> rows) = r :: rows). by rewrite IH.
Qed.

Lemma header_lines_DataLine (rows : list (list cell)) :
  header_lines (DataLine <$> rows) = [].
Proof. induction rows as [| r rows IH]; [done |]. done. Qed.

Lemma length_DataFrame (rows : list (list cell)) :
  length (DataFrame rows) = length rows.
Proof. apply length_fmap. Qed.

(** A batch of records of one width is written as it is. *)
Lemma DataFrame_uniform (W : nat) (rows : list (list cell)) :
  Forall (λ r, length r = W) rows → DataFrame rows = rows.
Proof.
  intros Hall.
  assert (Hw : (frame_width rows ≤ W)%nat).
  { unfold frame_width. induction Hall as [| r rows Hr _ IH]; simpl; [lia |].
    apply Nat.max_lub; [lia | exact IH]. }
  unfold DataFrame. rewrite <- (list_fmap_id rows) at 2.
  apply Forall_fmap_ext. eapply Forall_impl; [exact Hall |].
  intros r Hr. cbv beta in Hr |- *.
  replace (frame_width rows - length r)%nat with 0%nat by lia.
  apply app_nil_r.
Qed.

(** ** The streaming loop *)

Section Stream.
Variable transform : list string → result (list cell).
Variable path : string.

(** Fewer than 100 records in all: the loop never writes. *)
Lemma stream_short (rows : list (list string)) :
  ∀ bg fs bg' fs',
    (length bg + length rows < BUFF_TSHOLD)%nat →
    stream transform path rows bg fs = (Ok bg', fs') →
    fs' = fs ∧ length bg' = (length bg + length rows)%nat.
Proof.
  unfold BUFF_TSHOLD.
  induction rows as [| row rows IH]; intros bg fs bg' fs' Hlt H; simpl in *.
  - injection H as <- <-. split; [done | lia].
  - destruct (transform row) as [bf | e]; [| discriminate].
    destruct (Nat.eqb_spec (length (bg ++ [bf])) BUFF_TSHOLD) as [Heq | _].
    { rewrite length_app in Heq. unfold BUFF_TSHOLD in Heq. simpl in Heq. lia. }
    simpl in H. apply IH in H as [-> ->].
    + split; [done |]. rewrite length_app. simpl. lia.
    + rewrite length_app. simpl. lia.
Qed.

(** Below the threshold the loop leaves the file system alone, also when
    a record stops it. *)
Lemma stream_short_writes_nothing (rows : list (list string)) :
  ∀ bg fs res fs',
    (length bg + length rows < BUFF_TSHOLD)%nat →
    stream transform path rows bg fs = (res, fs') → fs' = fs.
Proof.
  unfold BUFF_TSHOLD.
  induction rows as [| row rows IH]; intros bg fs res fs' Hlt H; simpl in *.
  - by injection H as _ <-.
  - destruct (transform row) as [bf | e]; [| by injection H as _ <-].
    destruct (Nat.eqb_spec (length (bg ++ [bf])) BUFF_TSHOLD) as [Heq | _].
    { rewrite length_app in Heq. unfold BUFF_TSHOLD in Heq. simpl in Heq. lia. }
    simpl in H. apply IH in H; [done |]. rewrite length_app. simpl. lia.
Qed.

(** What the loop appends to the output file: every record it took is
    either written or still in the batch, and a header is written exactly
    when the first full batch meets a missing file. *)
Lemma stream_appends (rows : list (list string)) :
  ∀ bg fs bg' fs',
    (length bg < BUFF_TSHOLD)%nat →
    stream transform path rows bg fs = (Ok bg', fs') →
    (length bg' < BUFF_TSHOLD)%nat
    ∧ (∀ q, q ≠ path → fs' !! q = fs !! q)
    ∧ ∃ added,
        content fs' path = content fs path ++ added
        ∧ (length (data_cells added) + length bg'
           = length bg + length rows)%nat
        ∧ (is_Some (fs !! path) →
           is_Some (fs' !! path) ∧ header_lines added = [])
        ∧ (fs !! path = None →
           (BUFF_TSHOLD ≤ length bg + length rows)%nat →
           is_Some (fs' !! path)
           ∧ ∃ cols rest, added = HeaderLine cols :: rest
                          ∧ header_lines rest = []).
Proof.
  induction rows as [| row rows IH]; intros bg fs bg' fs' Hlt H; simpl in H.
  - injection H as <- <-. split; [done |]. split; [done |].
    exists []. rewrite app_nil_r. split; [done |]. split; [simpl; lia |].
    split; [done |]. intros _ Hge. simpl in Hge. lia.
  - destruct (transform row) as [bf | e]; [| discriminate].
    assert (Hlen : length (bg ++ [bf]) = S (length bg))
      by (rewrite length_app; simpl; lia).
    destruct (Nat.eqb_spec (length (bg ++ [bf])) BUFF_TSHOLD) as [Heq | Hne];
      [destruct (isfile fs path) eqn:Hfile |]; simpl in H.
    + (* a full batch, appended to the file *)
      apply isfile_true in Hfile.
      apply IH in H as (Hlt' & Hother & added & Hcontent & Hcount & Hsome & _);
        [| unfold BUFF_TSHOLD; simpl; lia].
      split; [done |]. split.
      { intros q Hq. by rewrite Hother, lookup_to_csv_ne. }
      destruct Hsome as [Hsome Hheaders];
        [by rewrite lookup_to_csv |].
      exists ((DataLine <$> DataFrame (bg ++ [bf])) ++ added).
      unfold content in Hcontent at 2. rewrite lookup_to_csv in Hcontent.
      simpl in Hcontent. rewrite <- app_assoc in Hcontent.
      split; [done |]. split.
      { rewrite data_cells_app, data_cells_DataLine, length_app,
          length_DataFrame. simpl in Hcount. simpl. lia. }
      split.
      { intros _. split; [done |].
        by rewrite header_lines_app, header_lines_DataLine, Hheaders. }
      intros Hnone. rewrite Hnone in Hfile. by destruct Hfile.
    + (* the first full batch, written with the header *)
      apply isfile_false in Hfile.
      apply IH in H as (Hlt' & Hother & added & Hcontent & Hcount & Hsome & _);
        [| unfold BUFF_TSHOLD; simpl; lia].
      split; [done |]. split.
      { intros q Hq. by rewrite Hother, lookup_to_csv_ne. }
      destruct Hsome as [Hsome Hheaders];
        [by rewrite lookup_to_csv |].
      exists (HeaderLine (columns (bg ++ [bf]))
              :: (DataLine <$> DataFrame (bg ++ [bf])) ++ added).
      unfold content in Hcontent at 2. rewrite lookup_to_csv in Hcontent.
      simpl in Hcontent. rewrite <- app_assoc in Hcontent.
      split; [done |]. split.
      { simpl. rewrite data_cells_app, data_cells_DataLine, length_app,
          length_DataFrame. simpl in Hcount. lia. }
      split.
      { intros Hsome'. rewrite Hfile in Hsome'. by destruct Hsome'. }
      intros _ _. split; [done |].
      eexists _, _. split; [done |].
      by rewrite header_lines_app, header_lines_DataLine, Hheaders.
    + (* the batch is not full yet *)
      apply IH in H as (Hlt' & Hother & added & Hcontent & Hcount & Hsome & Hnone);
        [| lia].
      split; [done |]. split; [done |].
      exists added. split; [done |]. split; [simpl; lia |].
      split; [done |].
      intros Hfile Hge. apply Hnone; [done |]. simpl in Hge. lia.
Qed.

(** When every record has the same width, the data rows of the file and
    the batch are, in order, the records of the rows read so far. *)
Lemma stream_records (W : nat) (rows : list (list string)) :
  (∀ row bf, transform row = Ok bf → length bf = W) →
  ∀ bg fs bg' fs',
    Forall (λ c, length c = W) bg →
    stream transform path rows bg fs = (Ok bg', fs') →
    Forall (λ c, length c = W) bg'
    ∧ ∃ recs,
        Forall2 (λ row bf, transform row = Ok bf) rows recs
        ∧ data_cells (content fs' path) ++ bg'
          = data_cells (content fs path) ++ bg ++ recs.
Proof.
  intros Hwidth.
  induction rows as [| row rows IH]; intros bg fs bg' fs' Hbg H; simpl in H.
  - injection H as <- <-. split; [done |]. exists [].
    split; [constructor | by rewrite app_nil_r].
  - destruct (transform row) as [bf | e] eqn:Hrow; [| discriminate].
    assert (Hbg1 : Forall (λ c, length c = W) (bg ++ [bf])).
    { apply Forall_app. split; [done |]. constructor; [eauto | done]. }
    assert (Hflush : ∀ cols header,
      data_cells (content (to_csv fs path cols (DataFrame (bg ++ [bf])) header)
                          path)
      = data_cells (content fs path) ++ bg ++ [bf]).
    { intros cols header. unfold content at 1. rewrite lookup_to_csv. simpl.
      rewrite !data_cells_app, data_cells_DataLine,
        (DataFrame_uniform _ _ Hbg1).
      by destruct header. }
    destruct ((length (bg ++ [bf]) =? BUFF_TSHOLD)%nat);
      [destruct (isfile fs path) |]; simpl in H;
      apply IH in H as (Hbg' & recs & Hrecs & Heq);
      try done; (split; [done |]); exists (bf :: recs);
      (split; [by constructor |]); rewrite Heq.
    + by rewrite Hflush, <- !app_assoc.
    + by rewrite Hflush, <- !app_assoc.
    + by rewrite <- !app_assoc.
Qed.
End Stream.

(** ** Jobs *)

Lemma pair_fst_eq {A B : Type} (p : A * B) (a : A) : p.1 = a → p = (a, p.2).
Proof. destruct p. simpl. by intros ->. Qed.

(** Opening a table and skipping its first line. *)
Lemma open_next_Ok (L : Lib) (fs : gmap string (list line)) (p : string)
    (reader : list (list string)) :
  open_reader L fs p ≫= next = Ok reader →
  ∃ lines, fs !! p = Some lines ∧ lines ≠ []
           ∧ reader = csv_fields L <$> tail lines.
Proof.
  intros H. inv_bind H. unfold open_reader in Ha.
  destruct (fs !! p) as [lines |]; [| discriminate].
  injection Ha as <-. exists lines. split; [done |].
  destruct lines as [| l lines]; [discriminate |].
  simpl in H. injection H as <-. done.
Qed.

(** A forward job that returns has streamed the whole input table into a
    path that did not exist when the loop started. *)
Lemma interpolator_Return (L : Lib) (cfg : config) (infile : string) (grid : Z)
    (method : string) (x y : list float) (w w' : world) (r : option dict) :
  mesh_interp.interpolator L cfg infile grid method x y w = (Return r, w') →
  let path := mesh_interp.new_fname L cfg infile grid method in
  let fs0 := remove_if_present (files w) path in
  ∃ grid_x grid_y lines bg fs1,
    mesh_interp.mesh_gen grid = Some (grid_x, grid_y)
    ∧ files w !! infile = Some lines
    ∧ fs0 !! path = None
    ∧ stream (transform_row L 564 method x y grid_x grid_y) path
        (csv_fields L <$> tail lines) [] fs0 = (Ok bg, fs1)
    ∧ files w' = final_flush fs1 path bg
    ∧ is_Some r.
Proof.
  intros H. unfold mesh_interp.interpolator in H. cbv zeta in H |- *.
  set (path := mesh_interp.new_fname L cfg infile grid method) in *.
  set (fs0 := remove_if_present (files w) path) in *.
  destruct (mesh_interp.mesh_gen grid) as [[grid_x grid_y] |]; [| discriminate].
  destruct (open_reader L fs0 infile ≫= next) as [reader |] eqn:Hopen;
    [| discriminate].
  destruct (stream _ _ _ _ _) as [[bg | e] fs1] eqn:Hstream; [| discriminate].
  injection H as <- <-.
  apply open_next_Ok in Hopen as (lines & Hlines & _ & ->).
  unfold fs0 in Hlines. rewrite remove_if_present_lookup in Hlines.
  case_decide; [discriminate |].
  exists grid_x, grid_y, lines, bg, fs1. repeat split; try done.
  unfold fs0. rewrite remove_if_present_lookup. by rewrite decide_True.
Qed.

(** An inverse job that returns a result got past the guard with a grid of
    at most one point and has streamed the whole forward table. *)
Lemma inv_interpolator_Return_Some (L : Lib) (cfg : config) (infile : string)
    (grid : Z) (method : string) (x y : list float) (w w' : world) (r : dict) :
  reverse_interp.inv_interpolator L cfg infile grid method x y w
  = (Return (Some r), w') →
  let path := reverse_interp.new_fname_inv L cfg infile grid method in
  let fs0 := remove_if_present (files w) path in
  ∃ grid_x grid_y lines bg fs1,
    mesh_interp.mesh_gen grid = Some (grid_x, grid_y)
    ∧ (length grid_x ≤ 1)%nat
    ∧ files w !! mesh_interp.new_fname L cfg infile grid method = Some lines
    ∧ fs0 !! path = None
    ∧ stream (λ row, transform_row L (reverse_interp.n_el_of row) method
                       grid_x grid_y x y row)
        path (csv_fields L <$> tail lines) [] fs0 = (Ok bg, fs1)
    ∧ files w' = final_flush fs1 path bg.
Proof.
  intros H. unfold reverse_interp.inv_interpolator in H. cbv zeta in H |- *.
  set (path := reverse_interp.new_fname_inv L cfg infile grid method) in *.
  set (fs0 := remove_if_present (files w) path) in *.
  destruct (isfile fs0 _); simpl in H; [| discriminate].
  destruct (mesh_interp.mesh_gen grid) as [[grid_x grid_y] |]; [| discriminate].
  destruct (array_eq_None_truth grid_x) as [[|] | e] eqn:Hguard;
    [discriminate | | discriminate].
  destruct (open_reader L fs0 _ ≫= next) as [reader |] eqn:Hopen;
    [| discriminate].
  destruct (stream _ _ _ _ _) as [[bg | e] fs1] eqn:Hstream; [| discriminate].
  destruct (read_csv _ _ ≫= _) as [[[r2 mae] mape] | e]; [| discriminate].
  injection H as <- <-.
  apply open_next_Ok in Hopen as (lines & Hlines & _ & ->).
  unfold fs0 in Hlines. rewrite remove_if_present_lookup in Hlines.
  case_decide; [discriminate |].
  exists grid_x, grid_y, lines, bg, fs1. repeat split; try done.
  - destruct grid_x as [| ? [| ? ?]]; simpl in *; try lia. discriminate.
  - unfold fs0. rewrite remove_if_present_lookup. by rewrite decide_True.
Qed.

Lemma content_final_flush (fs : gmap string (list line)) (path : string)
    (bg : list (list cell)) :
  content (final_flush fs path bg) path
  = content fs path ++ (DataLine <$> DataFrame bg).
Proof. unfold final_flush, content at 1. by rewrite lookup_to_csv. Qed.

(** The data rows of a finished output table are the transformed input
    rows, in order, once all records have one width. *)
Lemma job_records (transform : list string → result (list cell)) (path : string)
    (W : nat) (rows : list (list string)) (fs0 fs1 : gmap string (list line))
    (bg : list (list cell)) :
  (∀ row bf, transform row = Ok bf → length bf = W) →
  fs0 !! path = None →
  stream transform path rows [] fs0 = (Ok bg, fs1) →
  Forall2 (λ row bf, transform row = Ok bf) rows
    (data_cells (content (final_flush fs1 path bg) path)).
Proof.
  intros Hwidth Hnone Hstream.
  apply (stream_records _ _ W _ Hwidth) in Hstream
    as (Hbg & recs & Hrecs & Heq); [| constructor].
  rewrite content_final_flush, data_cells_app, data_cells_DataLine,
    (DataFrame_uniform _ _ Hbg), Heq.
  unfold content. rewrite Hnone. done.
Qed.

(** The number of data rows of a finished output table. *)
Lemma job_row_count (transform : list string → result (list cell))
    (path : string) (rows : list (list string))
    (fs0 fs1 : gmap string (list line)) (bg : list (list cell)) :
  fs0 !! path = None →
  stream transform path rows [] fs0 = (Ok bg, fs1) →
  length (data_cells (content (final_flush fs1 path bg) path)) = length rows.
Proof.
  intros Hnone Hstream.
  apply stream_appends in Hstream
    as (_ & _ & added & Hcontent & Hcount & _); [| unfold BUFF_TSHOLD; simpl; lia].
  rewrite content_final_flush, Hcontent, !data_cells_app, data_cells_DataLine,
    !length_app, length_DataFrame.
  unfold content. rewrite Hnone. simpl in *. lia.
Qed.

Lemma transform_row_width (L : Lib) (n_el : nat) (method : string)
    (sx sy tx ty : list float) :
  Rbf_shape_ok L →
  ∀ row bf, transform_row L n_el method sx sy tx ty row = Ok bf →
    length bf = (20 * (2 + 3 * length tx))%nat.
Proof.
  intros Hshape row bf Hrow.
  by apply transform_row_shape in Hrow as [Hlen _].
Qed.

Lemma job_records_width (transform : list string → result (list cell))
    (path : string) (W : nat) (rows : list (list string))
    (fs0 fs1 : gmap string (list line)) (bg : list (list cell)) :
  (∀ row bf, transform row = Ok bf → length bf = W) →
  fs0 !! path = None →
  stream transform path rows [] fs0 = (Ok bg, fs1) →
  Forall (λ bf, length bf = W)
    (data_cells (content (final_flush fs1 path bg) path)).
Proof.
  intros Hwidth Hnone Hstream.
  pose proof (job_records _ _ _ _ _ _ _ Hwidth Hnone Hstream) as Hrecs.
  eapply Forall2_Forall_r; [exact Hrecs |].
  apply Forall_forall. intros row _ bf Hrow. by eapply Hwidth.
Qed.





(** C7. With an interpolant that returns one value per destination point,
    every data row a finished job writes has width
    20 * (2 + 3 * destination-point-count): the grid points of [mesh_gen]
    for a forward job, the centroids for an inverse job. *)
Theorem output_width_invariant (L : Lib) (cfg : config) (infile : string)
    (grid : Z) (method : string) (x y : list float) (w w' : world)
    (r : dict) (grid_x grid_y : list float) :
  Rbf_shape_ok L →
  (mesh_interp.mesh_gen grid = Some (grid_x, grid_y) →
   mesh_interp.interpolator L cfg infile grid method x y w
   = (Return (Some r), w') →
   Forall (λ bf, length bf = (20 * (2 + 3 * length grid_x))%nat)
     (data_cells
        (content (files w') (mesh_interp.new_fname L cfg infile grid method))))
  ∧ (reverse_interp.inv_interpolator L cfg infile grid method x y w
     = (Return (Some r), w') →
     Forall (λ bf, length bf = (20 * (2 + 3 * length x))%nat)
       (data_cells
          (content (files w')
             (reverse_interp.new_fname_inv L cfg infile grid method)))).
Proof.
  intros Hshape. split.
  - intros Hmesh Hjob.
    apply interpolator_Return in Hjob
      as (gx & gy & lines & bg & fs1 & Hmesh' & _ & Hnone & Hstream & -> & _).
    rewrite Hmesh in Hmesh'. injection Hmesh' as <- <-.
    apply (job_records_width _ _ _ _ _ _ _
             (transform_row_width L _ method x y grid_x grid_y Hshape)
             Hnone Hstream).
  - intros Hjob.
    apply inv_interpolator_Return_Some in Hjob
      as (gx & gy & lines & bg & fs1 & _ & _ & _ & Hnone & Hstream & ->).
    refine (job_records_width _ _ _ _ _ _ _ _ Hnone Hstream).
    intros row. apply (transform_row_width L _ method gx gy x y Hshape).
Qed.

(** C9. In every data row a finished job writes, and for every timestep,
    the two leading fields of the output block are the force pair of the
    input block, as text, unchanged: the k-th output row carries the force
    pairs of the k-th input row. *)
Theorem force_pair_passed_through (L : Lib) (cfg : config) (infile : string)
    (grid : Z) (method : string) (x y : list float) (w w' : world)
    (r : dict) (grid_x grid_y : list float) (lines : list line) :
  Rbf_shape_ok L →
  (mesh_interp.mesh_gen grid = Some (grid_x, grid_y) →
   files w !! infile = Some lines →
   mesh_interp.interpolator L cfg infile grid method x y w
   = (Return (Some r), w') →
   Forall2 (λ l bf, force_pair_copied 564 (length grid_x) (csv_fields L l) bf)
     (tail lines)
     (data_cells
        (content (files w') (mesh_interp.new_fname L cfg infile grid method))))
  ∧ (files w !! mesh_interp.new_fname L cfg infile grid method = Some lines →
     reverse_interp.inv_interpolator L cfg infile grid method x y w
     = (Return (Some r), w') →
     Forall2 (λ l bf, force_pair_copied
                        (reverse_interp.n_el_of (csv_fields L l)) (length x)
                        (csv_fields L l) bf)
       (tail lines)
       (data_cells
          (content (files w')
             (reverse_interp.new_fname_inv L cfg infile grid method)))).
Proof.
  intros Hshape. split.
  - intros Hmesh Hlines Hjob.
    apply interpolator_Return in Hjob
      as (gx & gy & lines' & bg & fs1 & Hmesh' & Hlines' & Hnone & Hstream & -> & _).
    rewrite Hmesh in Hmesh'. injection Hmesh' as <- <-.
    rewrite Hlines in Hlines'. injection Hlines' as <-.
    pose proof (job_records _ _ _ _ _ _ _
                  (transform_row_width L _ method x y grid_x grid_y Hshape)
                  Hnone Hstream) as Hrecs.
    apply Forall2_fmap_l in Hrecs.
    eapply Forall2_impl; [exact Hrecs |]. intros l bf Hrow.
    by apply transform_row_shape in Hrow as [_ Hforce].
  - intros Hlines Hjob.
    apply inv_interpolator_Return_Some in Hjob
      as (gx & gy & lines' & bg & fs1 & _ & _ & Hlines' & Hnone & Hstream & ->).
    rewrite Hlines in Hlines'. injection Hlines' as <-.
    assert (Hwidth : ∀ row bf,
      transform_row L (reverse_interp.n_el_of row) method gx gy x y row = Ok bf →
      length bf = (20 * (2 + 3 * length x))%nat).
    { intros row. apply (transform_row_width L _ method gx gy x y Hshape). }
    pose proof (job_records _ _ _ _ _ _ _ Hwidth Hnone Hstream) as Hrecs.
    apply Forall2_fmap_l in Hrecs.
    eapply Forall2_impl; [exact Hrecs |]. intros l bf Hrow.
    by apply transform_row_shape in Hrow as [_ Hforce].
Qed.

(** ** Headers *)

(** X9. From 100 input records on, a forward job leaves exactly one header
    line in its output table, and it is the first line. *)
Lemma full_batch_job_has_one_header (L : Lib) (cfg : config) (infile : string)
    (grid : Z) (method : string) (x y : list float) (w w' : world)
    (r : option dict) (lines : list line) :
  files w !! infile = Some lines →
  (BUFF_TSHOLD ≤ length (tail lines))%nat →
  mesh_interp.interpolator L cfg infile grid method x y w = (Return r, w') →
  ∃ cols rest,
    files w' !! mesh_interp.new_fname L cfg infile grid method
    = Some (HeaderLine cols :: rest)
    ∧ header_lines rest = [].
Proof.
  intros Hlines Hge Hjob.
  apply interpolator_Return in Hjob
    as (gx & gy & lines' & bg & fs1 & _ & Hlines' & Hnone & Hstream & Hfiles & _).
  rewrite Hlines in Hlines'. injection Hlines' as <-.
  apply stream_appends in Hstream
    as (_ & _ & added & Hcontent & _ & _ & Hheader);
    [| unfold BUFF_TSHOLD; simpl; lia].
  destruct Hheader as (_ & cols & rest & -> & Hrest);
    [done | by rewrite length_fmap |].
  unfold content in Hcontent at 2. rewrite Hnone in Hcontent. simpl in Hcontent.
  exists cols, (rest ++ (DataLine <$> DataFrame bg)).
  rewrite Hfiles. unfold final_flush. rewrite lookup_to_csv, Hcontent.
  split; [done |].
  by rewrite header_lines_app, header_lines_DataLine, Hrest.
Qed.

(** C1 fails on the code for every forward job with fewer than 100 input
    records: the loop never writes, so the final flush, which never writes
    a header, is the first write to an output path that does not exist, and
    the finished table has no header line at all. *)
Theorem short_job_output_has_no_header (L : Lib) (cfg : config)
    (infile : string) (grid : Z) (method : string) (x y : list float)
    (w w' : world) (r : option dict) (lines : list line) :
  files w !! infile = Some lines →
  (length (tail lines) < BUFF_TSHOLD)%nat →
  mesh_interp.interpolator L cfg infile grid method x y w = (Return r, w') →
  let path := mesh_interp.new_fname L cfg infile grid method in
  let fs0 := remove_if_present (files w) path in
  isfile fs0 path = false
  ∧ ∃ bg, length bg = length (tail lines)
          ∧ files w' = final_flush fs0 path bg
          ∧ files w' !! path = Some (DataLine <$> DataFrame bg)
          ∧ header_lines (content (files w') path) = [].
Proof.
  intros Hlines Hlt Hjob path fs0.
  apply interpolator_Return in Hjob
    as (gx & gy & lines' & bg & fs1 & _ & Hlines' & Hnone & Hstream & Hfiles & _).
  fold path in Hnone, Hstream, Hfiles. fold fs0 in Hnone, Hstream.
  rewrite Hlines in Hlines'. injection Hlines' as <-.
  apply stream_short in Hstream as [-> Hbg]; [| by rewrite length_fmap].
  rewrite length_fmap in Hbg. simpl in Hbg.
  split; [by apply isfile_false |]. exists bg.
  assert (Hout : files w' !! path = Some (DataLine <$> DataFrame bg)).
  { rewrite Hfiles. unfold final_flush. rewrite lookup_to_csv.
    unfold content. by rewrite Hnone. }
  repeat split; [done | done | done |].
  unfold content. rewrite Hout. apply header_lines_DataLine.
Qed.

(** ** The element count *)

(** The inverse transformer recovers the element count of a well-formed
    row from its length. *)
Lemma n_el_of_layout (n : nat) (row : list string) :
  length row = (20 * (2 + 3 * n))%nat → reverse_interp.n_el_of row = n.
Proof.
  intros Hlen. unfold reverse_interp.n_el_of. rewrite Hlen.
  replace (Z.of_nat (20 * (2 + 3 * n)) - 40) with (Z.of_nat n * 60) by lia.
  rewrite Z.quot_mul by lia. apply Nat2Z.id.
Qed.

(** C5 fails on the code for the forward transformer: on a well-formed
    record of two source elements (160 fields) the count recovered from the
    row length is 2 and slicing with it succeeds, while the forward
    transformer slices with 564 elements, reads past the end of the row and
    makes the job print the error and exit with status 1. *)
Theorem forward_slices_with_fixed_count :
  let row := replicate (20 * (2 + 3 * 2)) "1" in
  reverse_interp.n_el_of row = 2%nat
  ∧ (∃ bf, transform_row demo.lib (reverse_interp.n_el_of row) "linear"
             demo.centroids_x demo.centroids_y [0%float] [0%float] row = Ok bf)
  ∧ transform_row demo.lib 564 "linear"
      demo.centroids_x demo.centroids_y [0%float] [0%float] row
    = Err IndexError
  ∧ (let out := mesh_interp.interpolator demo.lib demo.cfg "x_train" 20 "linear"
                  demo.centroids_x demo.centroids_y demo.short_world in
     out.1 = Exit 1 ∧ console out.2 = [ErrInterp IndexError]).
Proof.
  cbv zeta. split; [reflexivity |]. split; [| split; [| split]].
  - eexists. vm_compute. reflexivity.
  - vm_compute. reflexivity.
  - vm_compute. reflexivity.
  - vm_compute. reflexivity.
Qed.

(** ** Skipped and stopped inverse jobs *)

Lemma mesh_size_points (g : Z) (n : nat) :
  (λ p : list float * list float, length p.1) <$> mesh_interp.mesh_gen g = Some n →
  (1 < n)%nat →
  ∃ gx gy, mesh_interp.mesh_gen g = Some (gx, gy) ∧ (1 < length gx)%nat.
Proof.
  intros Hsize Hn.
  destruct (mesh_interp.mesh_gen g) as [[gx gy] |]; [| discriminate].
  simpl in Hsize. injection Hsize as <-. by exists gx, gy.
Qed.

(** The number of points [mesh_gen] keeps for the configured resolutions. *)
Lemma configured_grid_sizes :
  let size := λ g, (λ p : list float * list float, length p.1)
                     <$> mesh_interp.mesh_gen g in
  size 20 = Some 253%nat ∧ size 30 = Some 564%nat ∧ size 40 = Some 1006%nat.
Proof. vm_compute. done. Qed.

(** C8. An inverse job whose forward table does not exist prints the
    warning and returns no result; it writes nothing (the only change to the
    file system is the removal of a stale inverse table), and the sweep goes
    on with the next job without appending a metrics record. *)
Theorem missing_predecessor_is_skipped (L : Lib) (cfg : config)
    (infile : string) (grid : Z) (method : string) (x y : list float)
    (w : world) (rest : list (Z * string * string)) :
  files w !! mesh_interp.new_fname L cfg infile grid method = None →
  let job := λ file grid method,
               reverse_interp.inv_interpolator L cfg file grid method x y in
  let w' := say NoInterpFile
              (remove_if_present (files w)
                 (reverse_interp.new_fname_inv L cfg infile grid method)) w in
  job infile grid method w = (Return None, w')
  ∧ (∀ p ls, files w' !! p = Some ls → files w !! p = Some ls)
  ∧ sweep job (REV_METRICS cfg) ((grid, method, infile) :: rest) w
    = sweep job (REV_METRICS cfg) rest w'.
Proof.
  intros Hnone job w'.
  assert (Hjob : job infile grid method w = (Return None, w')).
  { unfold job, reverse_interp.inv_interpolator. cbv zeta.
    replace (isfile _ (mesh_interp.new_fname L cfg infile grid method))
      with false; [done |].
    symmetry. apply isfile_false. rewrite remove_if_present_lookup.
    by case_decide. }
  split; [done |]. split.
  - intros p ls. unfold w'. simpl. rewrite remove_if_present_lookup.
    by case_decide.
  - simpl. by rewrite Hjob.
Qed.

(** C10. An inverse job whose forward table exists and whose grid has more
    than one point stops at the comparison of the grid array with [None]:
    [ValueError] escapes before the table is opened, nothing is written or
    printed, and the sweep stops with it.  The three configured resolutions
    all give more than one point. *)
Theorem guard_raises_before_streaming (L : Lib) (cfg : config)
    (infile : string) (grid : Z) (method : string) (x y : list float)
    (w : world) (grid_x grid_y : list float)
    (rest : list (Z * string * string)) :
  is_Some (files w !! mesh_interp.new_fname L cfg infile grid method) →
  mesh_interp.new_fname L cfg infile grid method
  ≠ reverse_interp.new_fname_inv L cfg infile grid method →
  mesh_interp.mesh_gen grid = Some (grid_x, grid_y) →
  (1 < length grid_x)%nat →
  let job := λ file grid method,
               reverse_interp.inv_interpolator L cfg file grid method x y in
  let w' := {| files := remove_if_present (files w)
                          (reverse_interp.new_fname_inv L cfg infile grid method);
               console := console w |} in
  job infile grid method w = (Raise ValueError, w')
  ∧ sweep job (REV_METRICS cfg) ((grid, method, infile) :: rest) w
    = (Raise ValueError, w')
  ∧ Forall (λ g, ∃ gx gy, mesh_interp.mesh_gen g = Some (gx, gy)
                          ∧ (1 < length gx)%nat) GRIDS.
Proof.
  intros Hfile Hne Hmesh Hlen job w'.
  assert (Hjob : job infile grid method w = (Raise ValueError, w')).
  { unfold job, reverse_interp.inv_interpolator. cbv zeta.
    replace (isfile _ (mesh_interp.new_fname L cfg infile grid method))
      with true.
    - simpl. rewrite Hmesh.
      destruct grid_x as [| ? [| ? ?]]; simpl in Hlen; try lia. done.
    - symmetry. apply isfile_true. rewrite remove_if_present_lookup.
      by rewrite decide_False. }
  split; [done |]. split; [simpl; by rewrite Hjob |].
  destruct configured_grid_sizes as (H20 & H30 & H40).
  unfold GRIDS.
  constructor; [exact (mesh_size_points 20 253 H20 ltac:(lia)) |].
  constructor; [exact (mesh_size_points 30 564 H30 ltac:(lia)) |].
  constructor; [exact (mesh_size_points 40 1006 H40 ltac:(lia)) |].
  constructor.
Qed.

(** ** The stand-in library at work *)

Lemma idx_replicate {A : Type} (a : A) (W i : nat) :
  (i < W)%nat → idx (replicate W a) i = Ok a.
Proof. intros Hi. unfold idx. by rewrite lookup_replicate_2. Qed.

Lemma gather_replicate (a : string) (W : nat) :
  ∀ n i, (i + 3 * n ≤ W)%nat →
    gather (replicate W a) i n = Ok (replicate n a, replicate n a, replicate n a).
Proof.
  induction n as [| n IH]; intros i Hi; [done |].
  cbn [gather]. rewrite !idx_replicate by lia. simpl.
  rewrite IH by lia. done.
Qed.

Lemma mapM_replicate {A B : Type} (f : A → result B) (a : A) (b : B) (n : nat) :
  f a = Ok b → mapM f (replicate n a) = Ok (replicate n b).
Proof.
  intros Hf. induction n as [| n IH]; [done |].
  simpl. rewrite Hf. simpl. by rewrite IH.
Qed.

Lemma interleave_replicate (a b c : float) (m : nat) :
  ∀ k i, (i + k ≤ m)%nat →
    interleave i k (replicate m a) (replicate m b) (replicate m c)
    = Ok (concat (replicate k [CNum a; CNum b; CNum c])).
Proof.
  induction k as [| k IH]; intros i Hi; [done |].
  cbn [interleave]. rewrite !idx_replicate by lia. simpl.
  rewrite IH by lia. done.
Qed.

Lemma timesteps_const (block : nat → result (list cell)) (B : list cell) :
  ∀ k j bf, (∀ i, (i < k)%nat → block (j + i)%nat = Ok B) →
    timesteps block j k bf = Ok (bf ++ concat (replicate k B)).
Proof.
  induction k as [| k IH]; intros j bf Hblock; simpl.
  - by rewrite app_nil_r.
  - rewrite <- (Nat.add_0_r j) at 1. rewrite Hblock by lia. simpl.
    rewrite IH, <- app_assoc; [done |].
    intros i Hi. rewrite Nat.add_succ_comm. apply Hblock. lia.
Qed.

Lemma stream_one (transform : list string → result (list cell)) (path : string)
    (row : list string) (bf : list cell) (fs : gmap string (list line)) :
  transform row = Ok bf → stream transform path [row] [] fs = (Ok [bf], fs).
Proof. intros Hrow. simpl. by rewrite Hrow. Qed.

Lemma demo_Rbf_shape_ok : Rbf_shape_ok demo.lib.
Proof.
  intros xs ys vs method f tx ty r Hf Hr. simpl in Hf.
  destruct vs as [| v vs]; [discriminate |].
  injection Hf as <-. injection Hr as <-. apply length_replicate.
Qed.

(** One block of a record whose fields all read "1". *)
Lemma demo_block (n_el W : nat) (sx sy tx ty : list float) (j : nat) :
  (0 < n_el)%nat → (j * n_el * 3 + j * 2 + 2 + 3 * n_el ≤ W)%nat →
  timestep_block demo.lib n_el "linear" sx sy tx ty (replicate W "1") j
  = Ok (CStr "1" :: CStr "1"
        :: concat (replicate (length tx) [CNum 1%float; CNum 1%float; CNum 1%float])).
Proof.
  intros Hn HW. unfold timestep_block.
  rewrite !idx_replicate by lia. simpl.
  rewrite gather_replicate by lia. simpl.
  rewrite (mapM_replicate _ "1" 1%float) by reflexivity. simpl.
  destruct n_el as [| n]; [lia |]. simpl.
  unfold nan_to_num. rewrite fmap_replicate, length_replicate.
  replace (nan_to_num1 1%float) with 1%float by reflexivity.
  rewrite interleave_replicate by lia. done.
Qed.

Lemma demo_transform_row (n_el : nat) (sx sy tx ty : list float) :
  (0 < n_el)%nat →
  ∃ bf, transform_row demo.lib n_el "linear" sx sy tx ty
          (replicate (20 * (2 + 3 * n_el)) "1") = Ok bf.
Proof.
  intros Hn. eexists. unfold transform_row.
  apply timesteps_const. intros i Hi.
  assert (i * n_el ≤ 19 * n_el)%nat by (apply Nat.mul_le_mono_r; lia).
  apply demo_block; simpl; lia.
Qed.

(** A forward job on a table of a header and one record returns as soon as
    the record can be transformed. *)
Lemma interpolator_one_record (L : Lib) (cfg : config) (infile : string)
    (grid : Z) (method : string) (x y : list float) (w : world)
    (grid_x grid_y : list float) (first l : line) (bf : list cell) :
  mesh_interp.mesh_gen grid = Some (grid_x, grid_y) →
  files w !! infile = Some [first; l] →
  mesh_interp.new_fname L cfg infile grid method ≠ infile →
  transform_row L 564 method x y grid_x grid_y (csv_fields L l) = Ok bf →
  (mesh_interp.interpolator L cfg infile grid method x y w).1
  = Return (Some [("grid", CInt grid); ("method", CStr method);
                  ("file", CStr (stem L infile));
                  ("interpolation_duration",
                   CNum (elapsed_time L infile grid method))]).
Proof.
  intros Hmesh Hfile Hne Hrow. unfold mesh_interp.interpolator. cbv zeta.
  rewrite Hmesh. unfold open_reader.
  rewrite remove_if_present_lookup, decide_False, Hfile by done.
  simpl. by rewrite Hrow.
Qed.

(** The forward job on the one-record table returns its result. *)
Lemma demo_forward_returns :
  demo.forward_run = (Return (Some demo.forward_result), demo.forward_run.2).
Proof.
  apply pair_fst_eq. unfold demo.forward_run.
  destruct (mesh_interp.mesh_gen 20) as [[grid_x grid_y] |] eqn:Hmesh;
    [| vm_compute in Hmesh; discriminate].
  destruct (demo_transform_row 564 demo.centroids_x demo.centroids_y
              grid_x grid_y) as [bf Hbf]; [lia |].
  apply (interpolator_one_record demo.lib demo.cfg "x_train" 20 "linear"
           demo.centroids_x demo.centroids_y demo.forward_world
           grid_x grid_y (HeaderLine []) (DataLine demo.run_564) bf).
  - exact Hmesh.
  - apply lookup_singleton_eq.
  - intros H. vm_compute in H. discriminate.
  - unfold demo.run_564, csv_fields. rewrite fmap_replicate. exact Hbf.
Qed.

Lemma demo_inverse_returns :
  demo.inverse_run = (Return (Some demo.inverse_result), demo.inverse_run.2).
Proof. apply pair_fst_eq. vm_compute. reflexivity. Qed.

(** ** The theorems at the concrete runs *)

Lemma demo_mesh_20 : mesh_interp.mesh_gen 20 = Some (demo.grid_x, demo.grid_y).
Proof.
  unfold demo.grid_x, demo.grid_y.
  destruct (mesh_interp.mesh_gen 20) as [[gx gy] |] eqn:Hmesh; [done |].
  vm_compute in Hmesh. discriminate.
Qed.

Lemma short_job_output_has_no_header_witness :
  header_lines
    (content (files demo.forward_run.2)
       (mesh_interp.new_fname demo.lib demo.cfg "x_train" 20 "linear"))
  = [].
Proof.
  destruct (short_job_output_has_no_header demo.lib demo.cfg "x_train" 20
              "linear" demo.centroids_x demo.centroids_y demo.forward_world
              demo.forward_run.2 (Some demo.forward_result)
              [HeaderLine []; DataLine demo.run_564])
    as (_ & bg & _ & _ & _ & Hheaders).
  - apply lookup_singleton_eq.
  - unfold BUFF_TSHOLD. simpl. lia.
  - apply demo_forward_returns.
  - exact Hheaders.
Defined.



Lemma output_width_invariant_witness :
  Forall (λ bf, length bf
                = (20 * (2 + 3 * length demo.grid_x))%nat)
    (data_cells
       (content (files demo.forward_run.2)
          (mesh_interp.new_fname demo.lib demo.cfg "x_train" 20 "linear")))
  ∧ Forall (λ bf, length bf = (20 * (2 + 3 * length demo.centroids_x))%nat)
      (data_cells
         (content (files demo.inverse_run.2)
            (reverse_interp.new_fname_inv demo.lib demo.cfg "x_train" 1 "linear"))).
Proof.
  split.
  - apply (proj1 (output_width_invariant demo.lib demo.cfg "x_train" 20 "linear"
                    demo.centroids_x demo.centroids_y demo.forward_world
                    demo.forward_run.2 demo.forward_result
                    demo.grid_x demo.grid_y demo_Rbf_shape_ok)).
    + apply demo_mesh_20.
    + apply demo_forward_returns.
  - apply (proj2 (output_width_invariant demo.lib demo.cfg "x_train" 1 "linear"
                    demo.centroids_x demo.centroids_y demo.inverse_world
                    demo.inverse_run.2 demo.inverse_result
                    [] [] demo_Rbf_shape_ok)).
    apply demo_inverse_returns.
Defined.

Lemma force_pair_passed_through_witness :
  Forall2 (λ l bf, force_pair_copied 564 (length demo.grid_x)
                     (csv_fields demo.lib l) bf)
    [DataLine demo.run_564]
    (data_cells
       (content (files demo.forward_run.2)
          (mesh_interp.new_fname demo.lib demo.cfg "x_train" 20 "linear")))
  ∧ Forall2 (λ l bf, force_pair_copied
                       (reverse_interp.n_el_of (csv_fields demo.lib l))
                       (length demo.centroids_x) (csv_fields demo.lib l) bf)
      [DataLine demo.run_1]
      (data_cells
         (content (files demo.inverse_run.2)
            (reverse_interp.new_fname_inv demo.lib demo.cfg "x_train" 1 "linear"))).
Proof.
  split.
  - apply (proj1 (force_pair_passed_through demo.lib demo.cfg "x_train" 20
                    "linear" demo.centroids_x demo.centroids_y
                    demo.forward_world demo.forward_run.2 demo.forward_result
                    demo.grid_x demo.grid_y
                    [HeaderLine []; DataLine demo.run_564]
                    demo_Rbf_shape_ok)).
    + apply demo_mesh_20.
    + apply lookup_singleton_eq.
    + apply demo_forward_returns.
  - apply (proj2 (force_pair_passed_through demo.lib demo.cfg "x_train" 1
                    "linear" demo.centroids_x demo.centroids_y
                    demo.inverse_world demo.inverse_run.2 demo.inverse_result
                    [] [] [HeaderLine []; DataLine demo.run_1]
                    demo_Rbf_shape_ok)).
    + vm_compute. reflexivity.
    + apply demo_inverse_returns.
Defined.

Lemma missing_predecessor_is_skipped_witness :
  reverse_interp.inv_interpolator demo.lib demo.cfg "x_train" 20 "linear"
    demo.centroids_x demo.centroids_y demo.forward_world
  = (Return None,
     say NoInterpFile
       (remove_if_present (files demo.forward_world)
          (reverse_interp.new_fname_inv demo.lib demo.cfg "x_train" 20 "linear"))
       demo.forward_world).
Proof.
  destruct (missing_predecessor_is_skipped demo.lib demo.cfg "x_train" 20
              "linear" demo.centroids_x demo.centroids_y demo.forward_world [])
    as (Hjob & _ & _).
  - vm_compute. reflexivity.
  - exact Hjob.
Defined.

Lemma demo_mesh_20_size : (1 < length demo.grid_x)%nat.
Proof.
  unfold demo.grid_x.
  destruct configured_grid_sizes as (H20 & _ & _).
  destruct (mesh_interp.mesh_gen 20) as [[gx gy] |]; [| discriminate].
  simpl in H20 |- *. injection H20 as ->. lia.
Qed.

Lemma guard_raises_before_streaming_witness :
  reverse_interp.inv_interpolator demo.lib demo.cfg "x_train" 20 "linear"
    demo.centroids_x demo.centroids_y demo.grid20_world
  = (Raise ValueError,
     {| files := remove_if_present (files demo.grid20_world)
                   (reverse_interp.new_fname_inv demo.lib demo.cfg "x_train" 20
                      "linear");
        console := console demo.grid20_world |}).
Proof.
  destruct (guard_raises_before_streaming demo.lib demo.cfg "x_train" 20
              "linear" demo.centroids_x demo.centroids_y demo.grid20_world
              demo.grid_x demo.grid_y []) as (Hjob & _ & _).
  - eexists. vm_compute. reflexivity.
  - intros H. vm_compute in H. discriminate.
  - apply demo_mesh_20.
  - apply demo_mesh_20_size.
  - exact Hjob.
Defined.


(** * Further properties of the two scripts *)

(** ** The shape of the mesh *)

(** X1. [mesh_gen] fails exactly on a negative resolution.  Otherwise the
    lattice has [n_points * n_points] candidates, and the two coordinate
    arrays returned have the same length, at most that many. *)
Theorem mesh_gen_shape (n_points : Z) :
  (n_points < 0 → mesh_interp.mesh_gen n_points = None)
  ∧ (0 ≤ n_points →
     ∃ points x_coords y_coords,
       mesh_interp.lattice n_points = Some points
       ∧ length points = (Z.to_nat n_points * Z.to_nat n_points)%nat
       ∧ mesh_interp.mesh_gen n_points = Some (x_coords, y_coords)
       ∧ length x_coords = length y_coords
       ∧ (length x_coords ≤ length points)%nat).
Proof.
  split.
  - intros Hneg. unfold mesh_interp.mesh_gen, mesh_interp.lattice, linspace.
    destruct (Z.ltb_spec n_points 0); [done | lia].
  - intros Hn. unfold mesh_interp.mesh_gen, mesh_interp.lattice.
    destruct (linspace 0 30 n_points) as [x | e] eqn:Hx.
    + apply linspace_length in Hx.
      exists (meshgrid_points x x),
        (List.filter mesh_interp.final_region (meshgrid_points x x)).*1,
        (List.filter mesh_interp.final_region (meshgrid_points x x)).*2.
      rewrite meshgrid_points_length, Hx, !length_fmap.
      repeat split; try done.
      rewrite <- Hx, <- meshgrid_points_length. apply List.filter_length_le.
    + exfalso. unfold linspace in Hx.
      destruct (Z.ltb_spec n_points 0); [lia | discriminate].
Qed.

Lemma mesh_gen_shape_witness :
  mesh_interp.mesh_gen (-1) = None
  ∧ ∃ points x_coords y_coords,
      mesh_interp.lattice 3 = Some points
      ∧ length points = (Z.to_nat 3 * Z.to_nat 3)%nat
      ∧ mesh_interp.mesh_gen 3 = Some (x_coords, y_coords)
      ∧ length x_coords = length y_coords
      ∧ (length x_coords ≤ length points)%nat.
Proof.
  split.
  - apply (proj1 (mesh_gen_shape (-1))). lia.
  - apply (proj2 (mesh_gen_shape 3)). lia.
Defined.

(** ** What a job leaves alone *)

Lemma remove_if_present_delete (fs : gmap string (list line)) (p : string) :
  remove_if_present fs p = delete p fs.
Proof.
  unfold remove_if_present. destruct (isfile fs p) eqn:Hp; [done |].
  apply isfile_false in Hp. by rewrite delete_id.
Qed.

Lemma stream_frame (transform : list string → result (list cell))
    (path : string) (rows : list (list string)) :
  ∀ bg fs res fs',
    stream transform path rows bg fs = (res, fs') →
    ∀ q, q ≠ path → fs' !! q = fs !! q.
Proof.
  induction rows as [| row rows IH]; intros bg fs res fs' H q Hq; simpl in H.
  - by injection H as <- <-.
  - destruct (transform row) as [bf | e]; [| by injection H as <- <-].
    destruct (_ && _); [| destruct (_ && _)]; apply IH with (q := q) in H;
      try done; by rewrite H, ?lookup_to_csv_ne.
Qed.

Lemma interpolator_frame (L : Lib) (cfg : config) (infile : string)
    (grid : Z) (method : string) (x y : list float) (w w' : world)
    (o : outcome (option dict)) (q : string) :
  mesh_interp.interpolator L cfg infile grid method x y w = (o, w') →
  q ≠ mesh_interp.new_fname L cfg infile grid method →
  files w' !! q = files w !! q.
Proof.
  intros H Hq. unfold mesh_interp.interpolator in H. cbv zeta in H.
  set (path := mesh_interp.new_fname L cfg infile grid method) in *.
  assert (Hfs0 : remove_if_present (files w) path !! q = files w !! q)
    by (rewrite remove_if_present_lookup; by rewrite decide_False).
  destruct (mesh_interp.mesh_gen grid) as [[grid_x grid_y] |];
    [| by injection H as <- <-].
  destruct (open_reader L _ infile ≫= next) as [reader | e];
    [| by injection H as <- <-].
  destruct (stream _ _ _ _ _) as [[bg | e] fs1] eqn:Hstream;
    injection H as <- <-; simpl;
    apply stream_frame with (q := q) in Hstream; try done.
  - unfold final_flush. by rewrite lookup_to_csv_ne, Hstream.
  - by rewrite Hstream.
Qed.

Lemma inv_interpolator_frame (L : Lib) (cfg : config) (infile : string)
    (grid : Z) (method : string) (x y : list float) (w w' : world)
    (o : outcome (option dict)) (q : string) :
  reverse_interp.inv_interpolator L cfg infile grid method x y w = (o, w') →
  q ≠ reverse_interp.new_fname_inv L cfg infile grid method →
  files w' !! q = files w !! q.
Proof.
  intros H Hq. unfold reverse_interp.inv_interpolator in H. cbv zeta in H.
  set (path := reverse_interp.new_fname_inv L cfg infile grid method) in *.
  assert (Hfs0 : remove_if_present (files w) path !! q = files w !! q)
    by (rewrite remove_if_present_lookup; by rewrite decide_False).
  destruct (isfile _ _); simpl in H; [| by injection H as <- <-].
  destruct (mesh_interp.mesh_gen grid) as [[grid_x grid_y] |];
    [| by injection H as <- <-].
  destruct (array_eq_None_truth grid_x) as [[|] | e];
    [by injection H as <- <- | | by injection H as <- <-].
  destruct (open_reader L _ _ ≫= next) as [reader | e];
    [| by injection H as <- <-].
  destruct (stream _ _ _ _ _) as [[bg | e] fs1] eqn:Hstream;
    apply stream_frame with (q := q) in Hstream; try done.
  - destruct (read_csv _ _ ≫= _) as [[[r2 mae] mape] | e];
      injection H as <- <-; simpl; unfold final_flush;
      by rewrite lookup_to_csv_ne, Hstream.
  - injection H as <- <-. simpl. by rewrite Hstream.
Qed.

(** X2. Whatever its outcome, a job changes no file but its own output table:
    the forward job only [new_fname], the inverse job only [new_fname_inv].
    In particular the input tables are never written. *)
Theorem job_writes_only_its_output (L : Lib) (cfg : config) (infile : string)
    (grid : Z) (method : string) (x y : list float) (w w' : world)
    (o : outcome (option dict)) (q : string) :
  (mesh_interp.interpolator L cfg infile grid method x y w = (o, w') →
   q ≠ mesh_interp.new_fname L cfg infile grid method →
   files w' !! q = files w !! q)
  ∧ (reverse_interp.inv_interpolator L cfg infile grid method x y w = (o, w') →
     q ≠ reverse_interp.new_fname_inv L cfg infile grid method →
     files w' !! q = files w !! q).
Proof.
  split; [apply interpolator_frame | apply inv_interpolator_frame].
Qed.

Lemma job_writes_only_its_output_witness :
  files demo.forward_run.2 !! "x_train" = files demo.forward_world !! "x_train"
  ∧ files demo.inverse_run.2 !! "x_train" = files demo.inverse_world !! "x_train".
Proof.
  split.
  - apply (proj1 (job_writes_only_its_output demo.lib demo.cfg "x_train" 20
                    "linear" demo.centroids_x demo.centroids_y
                    demo.forward_world demo.forward_run.2 demo.forward_run.1
                    "x_train")).
    + unfold demo.forward_run. by destruct (mesh_interp.interpolator _ _ _ _ _ _ _ _).
    + intros H. vm_compute in H. discriminate.
  - apply (proj2 (job_writes_only_its_output demo.lib demo.cfg "x_train" 1
                    "linear" demo.centroids_x demo.centroids_y
                    demo.inverse_world demo.inverse_run.2 demo.inverse_run.1
                    "x_train")).
    + unfold demo.inverse_run.
      by destruct (reverse_interp.inv_interpolator _ _ _ _ _ _ _ _).
    + intros H. vm_compute in H. discriminate.
Defined.

(** X3. A table left at the output path by an earlier run has no influence: the
    job behaves as if the path had been empty, whatever the old content. *)
Theorem stale_output_is_discarded (L : Lib) (cfg : config) (infile : string)
    (grid : Z) (method : string) (x y : list float) (w : world)
    (stale : list line) :
  mesh_interp.interpolator L cfg infile grid method x y
    {| files := <[mesh_interp.new_fname L cfg infile grid method := stale]>
                  (files w);
       console := console w |}
  = mesh_interp.interpolator L cfg infile grid method x y
      {| files := delete (mesh_interp.new_fname L cfg infile grid method)
                    (files w);
         console := console w |}
  ∧ reverse_interp.inv_interpolator L cfg infile grid method x y
      {| files := <[reverse_interp.new_fname_inv L cfg infile grid method := stale]>
                    (files w);
         console := console w |}
    = reverse_interp.inv_interpolator L cfg infile grid method x y
        {| files := delete (reverse_interp.new_fname_inv L cfg infile grid method)
                      (files w);
           console := console w |}.
Proof.
  split.
  - unfold mesh_interp.interpolator, say. cbv zeta. simpl.
    by rewrite !remove_if_present_delete, delete_insert_eq, delete_delete_eq.
  - unfold reverse_interp.inv_interpolator, say. cbv zeta. simpl.
    by rewrite !remove_if_present_delete, delete_insert_eq, delete_delete_eq.
Qed.

(** ** Jobs that stop before the first record *)

Lemma mesh_gen_points_or_none (n_points : Z) :
  (n_points < 0 → mesh_interp.mesh_gen n_points = None)
  ∧ (0 ≤ n_points →
     ∃ x_coords y_coords, mesh_interp.mesh_gen n_points = Some (x_coords, y_coords)).
Proof.
  unfold mesh_interp.mesh_gen, mesh_interp.lattice, linspace.
  split; intros Hn; destruct (Z.ltb_spec n_points 0); try lia; [done |].
  simpl. eauto.
Qed.

(** X4. A forward job exits with status 1 before it reads a record when the
    resolution is negative, when the input table does not exist, and when
    the input table has no line at all; each time it prints one error
    message, and the only change on disk is the removal of the old output
    table. *)
Theorem forward_job_setup_failures (L : Lib) (cfg : config) (infile : string)
    (grid : Z) (method : string) (x y : list float) (w : world) :
  let fs0 := remove_if_present (files w)
               (mesh_interp.new_fname L cfg infile grid method) in
  (grid < 0 →
   mesh_interp.interpolator L cfg infile grid method x y w
   = (Exit 1, say ErrMeshGrid fs0 w))
  ∧ (0 ≤ grid → fs0 !! infile = None →
     mesh_interp.interpolator L cfg infile grid method x y w
     = (Exit 1, say (ErrInterp FileNotFoundError) fs0 w))
  ∧ (0 ≤ grid → fs0 !! infile = Some [] →
     mesh_interp.interpolator L cfg infile grid method x y w
     = (Exit 1, say (ErrInterp StopIteration) fs0 w)).
Proof.
  intros fs0. unfold mesh_interp.interpolator. cbv zeta. fold fs0.
  split; [| split].
  - intros Hneg. by rewrite (proj1 (mesh_gen_points_or_none grid) Hneg).
  - intros Hgrid Hfile.
    destruct (proj2 (mesh_gen_points_or_none grid) Hgrid) as (gx & gy & ->).
    unfold open_reader. by rewrite Hfile.
  - intros Hgrid Hfile.
    destruct (proj2 (mesh_gen_points_or_none grid) Hgrid) as (gx & gy & ->).
    unfold open_reader. by rewrite Hfile.
Qed.

Lemma forward_job_setup_failures_witness :
  mesh_interp.interpolator demo.lib demo.cfg "x_train" (-1) "linear"
    demo.centroids_x demo.centroids_y demo.forward_world
  = (Exit 1,
     say ErrMeshGrid
       (remove_if_present (files demo.forward_world)
          (mesh_interp.new_fname demo.lib demo.cfg "x_train" (-1) "linear"))
       demo.forward_world)
  ∧ mesh_interp.interpolator demo.lib demo.cfg "x_test" 20 "linear"
      demo.centroids_x demo.centroids_y demo.forward_world
    = (Exit 1,
       say (ErrInterp FileNotFoundError)
         (remove_if_present (files demo.forward_world)
            (mesh_interp.new_fname demo.lib demo.cfg "x_test" 20 "linear"))
         demo.forward_world)
  ∧ mesh_interp.interpolator demo.lib demo.cfg "x_train" 20 "linear"
      demo.centroids_x demo.centroids_y
      {| files := {[ "x_train" := [] ]}; console := [] |}
    = (Exit 1,
       say (ErrInterp StopIteration)
         (remove_if_present {[ "x_train" := [] ]}
            (mesh_interp.new_fname demo.lib demo.cfg "x_train" 20 "linear"))
         {| files := {[ "x_train" := [] ]}; console := [] |}).
Proof.
  split; [| split].
  - pose proof (forward_job_setup_failures demo.lib demo.cfg "x_train" (-1)
                  "linear" demo.centroids_x demo.centroids_y demo.forward_world)
      as (Hmesh & _ & _).
    apply Hmesh. lia.
  - pose proof (forward_job_setup_failures demo.lib demo.cfg "x_test" 20
                  "linear" demo.centroids_x demo.centroids_y demo.forward_world)
      as (_ & Hmissing & _).
    apply Hmissing; [lia | vm_compute; reflexivity].
  - pose proof (forward_job_setup_failures demo.lib demo.cfg "x_train" 20
                  "linear" demo.centroids_x demo.centroids_y
                  {| files := {[ "x_train" := [] ]}; console := [] |})
      as (_ & _ & Hempty).
    apply Hempty; [lia | vm_compute; reflexivity].
Defined.

(** X5. An inverse job returns no result only when the forward table is
    missing: the [return None] under the comparison of the grid with [None]
    is never taken. *)
Theorem inverse_none_means_missing_table (L : Lib) (cfg : config)
    (infile : string) (grid : Z) (method : string) (x y : list float)
    (w w' : world) :
  reverse_interp.inv_interpolator L cfg infile grid method x y w
  = (Return None, w') →
  let fs0 := remove_if_present (files w)
               (reverse_interp.new_fname_inv L cfg infile grid method) in
  fs0 !! mesh_interp.new_fname L cfg infile grid method = None
  ∧ w' = say NoInterpFile fs0 w.
Proof.
  intros H fs0. unfold reverse_interp.inv_interpolator in H. cbv zeta in H.
  fold fs0 in H.
  destruct (isfile fs0 _) eqn:Hfile; simpl in H.
  - exfalso.
    destruct (mesh_interp.mesh_gen grid) as [[grid_x grid_y] |]; [| discriminate].
    destruct grid_x as [| ? [| ? ?]]; simpl in H; try discriminate;
      destruct (open_reader L _ _ ≫= next) as [reader | e]; try discriminate;
      destruct (stream _ _ _ _ _) as [[bg | e] fs1]; try discriminate;
      by destruct (read_csv _ _ ≫= _) as [[[r2 mae] mape] | e].
  - apply isfile_false in Hfile. by injection H as <-.
Qed.

Lemma inverse_none_means_missing_table_witness :
  remove_if_present (files {| files := ∅; console := [] |})
    (reverse_interp.new_fname_inv demo.lib demo.cfg "x_train" 20 "linear")
  !! mesh_interp.new_fname demo.lib demo.cfg "x_train" 20 "linear" = None.
Proof.
  apply (inverse_none_means_missing_table demo.lib demo.cfg "x_train" 20
           "linear" demo.centroids_x demo.centroids_y
           {| files := ∅; console := [] |}
           (say NoInterpFile
              (remove_if_present ∅
                 (reverse_interp.new_fname_inv demo.lib demo.cfg "x_train" 20
                    "linear"))
              {| files := ∅; console := [] |})).
  vm_compute. reflexivity.
Defined.

(** ** The centroid file *)

Lemma mapM_Ok_Forall2 {A B : Type} (f : A → result B) (l : list A) (k : list B) :
  mapM f l = Ok k → Forall2 (λ a b, f a = Ok b) l k.
Proof.
  revert k. induction l as [| a l IH]; intros k H; simpl in H.
  - injection H as <-. constructor.
  - inv_bind H. injection H as <-. constructor; [done | by apply IH].
Qed.

(** X6. When the centroid file is read, every line of it is a point (no header
    is skipped): the two arrays have one entry per line, in order, parsed
    from the first and the second field of that line. *)
Theorem read_centroids_aligned (L : Lib) (fs : gmap string (list line))
    (path : string) (x y : list float) :
  read_centroids L fs path = Ok (x, y) →
  ∃ lines,
    fs !! path = Some lines
    ∧ length x = length lines ∧ length y = length lines
    ∧ ∀ (i : nat) l, lines !! i = Some l →
        ∃ a b xv yv,
          csv_fields L l !! 0%nat = Some a ∧ csv_fields L l !! 1%nat = Some b
          ∧ float_of_string L a = Ok xv ∧ float_of_string L b = Ok yv
          ∧ x !! i = Some xv ∧ y !! i = Some yv.
Proof.
  unfold read_centroids, open_reader. intros H.
  destruct (fs !! path) as [lines |]; [| discriminate]. simpl in H.
  inv_bind H. injection H as <- <-.
  apply mapM_Ok_Forall2 in Ha, Ha0, Ha1.
  apply Forall2_fmap_l in Ha. apply Forall2_fmap_l in Ha0, Ha1.
  exists lines.
  pose proof (Forall2_length _ _ _ Ha) as Hlen.
  pose proof (Forall2_length _ _ _ Ha0) as Hlen0.
  pose proof (Forall2_length _ _ _ Ha1) as Hlen1.
  split; [done |]. split; [lia |]. split; [lia |].
  intros i l Hl.
  destruct (Forall2_lookup_l _ _ _ _ _ Ha Hl) as ([fa fb] & Hab & Hfields).
  simpl in Hfields. inv_bind Hfields. injection Hfields as <- <-.
  apply idx_Ok in Ha2, Ha3.
  destruct (Forall2_lookup_l _ _ _ _ _ Ha0 Hab) as (xv & Hxv & Hpx).
  destruct (Forall2_lookup_l _ _ _ _ _ Ha1 Hab) as (yv & Hyv & Hpy).
  by exists a2, a3, xv, yv.
Qed.

Lemma read_centroids_aligned_witness :
  ∃ lines,
    ({[ "centroids.csv" := [DataLine [CStr "0"; CStr "1"];
                            DataLine [CStr "1"; CStr "inf"]] ]}
       : gmap string (list line)) !! "centroids.csv" = Some lines
    ∧ length [0%float; 1%float] = length lines
    ∧ length [1%float; infinity] = length lines
    ∧ ∀ (i : nat) l, lines !! i = Some l →
        ∃ a b xv yv,
          csv_fields demo.lib l !! 0%nat = Some a
          ∧ csv_fields demo.lib l !! 1%nat = Some b
          ∧ float_of_string demo.lib a = Ok xv
          ∧ float_of_string demo.lib b = Ok yv
          ∧ [0%float; 1%float] !! i = Some xv
          ∧ [1%float; infinity] !! i = Some yv.
Proof.
  apply (read_centroids_aligned demo.lib). vm_compute. reflexivity.
Defined.

(** ** Slicing a row *)

Lemma gather_in_range (row : list string) :
  ∀ n_el i, (i + 3 * n_el ≤ length row)%nat →
    ∃ def_x def_y def_xy,
      gather row i n_el = Ok (def_x, def_y, def_xy)
      ∧ length def_x = n_el ∧ length def_y = n_el ∧ length def_xy = n_el.
Proof.
  induction n_el as [| n IH]; intros i Hi.
  - by exists [], [], [].
  - destruct (lookup_lt_is_Some_2 row i) as [a Ha]; [lia |].
    destruct (lookup_lt_is_Some_2 row (i + 1)) as [b Hb]; [lia |].
    destruct (lookup_lt_is_Some_2 row (i + 2)) as [c Hc]; [lia |].
    destruct (IH (i + 3)%nat) as (dx & dy & dxy & Hrest & Hx & Hy & Hxy); [lia |].
    exists (a :: dx), (b :: dy), (c :: dxy).
    cbn [gather]. unfold idx. rewrite Ha, Hb, Hc. simpl. rewrite Hrest. simpl.
    by rewrite Hx, Hy, Hxy.
Qed.

Lemma n_el_of_bound (row : list string) :
  (40 ≤ length row)%nat →
  (20 * (2 + 3 * reverse_interp.n_el_of row) ≤ length row)%nat.
Proof.
  intros Hlen. unfold reverse_interp.n_el_of.
  set (z := Z.of_nat (length row) - 40).
  assert (Hz : 0 ≤ z) by (unfold z; lia).
  rewrite Z.quot_div_nonneg by lia.
  pose proof (Z.mul_div_le z 60 ltac:(lia)) as Hle.
  pose proof (Z.div_pos z 60 Hz ltac:(lia)) as Hpos.
  unfold z in *. lia.
Qed.

(** X7. The element count the inverse transformer derives from the length of a
    row keeps every index in range: on a row of 40 fields or more the force
    pair and the [n_el] triples of each of the 20 timesteps are all there
    (fields beyond the last block are ignored).  A row of fewer than 40
    fields is never transformed. *)
Theorem inverse_slicing_stays_in_range (row : list string) :
  ((40 ≤ length row)%nat →
   ∀ j : nat, (j < 20)%nat →
     let n_el := reverse_interp.n_el_of row in
     let c := (j * n_el * 3 + j * 2)%nat in
     is_Some (row !! c) ∧ is_Some (row !! (c + 1)%nat)
     ∧ ∃ def_x def_y def_xy,
         gather row (c + 2)%nat n_el = Ok (def_x, def_y, def_xy)
         ∧ length def_x = n_el ∧ length def_y = n_el ∧ length def_xy = n_el)
  ∧ ((length row < 40)%nat →
     ∀ (L : Lib) method sx sy tx ty,
       ∃ e, transform_row L (reverse_interp.n_el_of row) method sx sy tx ty row
            = Err e).
Proof.
  split.
  - intros Hlen j Hj n_el c.
    pose proof (n_el_of_bound row Hlen) as Hbound. fold n_el in Hbound.
    assert (j * n_el ≤ 19 * n_el)%nat by (apply Nat.mul_le_mono_r; lia).
    split; [apply lookup_lt_is_Some_2; unfold c; lia |].
    split; [apply lookup_lt_is_Some_2; unfold c; lia |].
    apply gather_in_range. unfold c. lia.
  - intros Hlen L method sx sy tx ty.
    destruct (transform_row _ _ _ _ _ _ _ row) as [bf | e] eqn:Hrow; [| eauto].
    apply transform_row_needs_width in Hrow. lia.
Qed.

Lemma inverse_slicing_stays_in_range_witness :
  (is_Some (replicate 107 "1" !! 15%nat)
   ∧ is_Some (replicate 107 "1" !! 16%nat)
   ∧ ∃ def_x def_y def_xy,
       gather (replicate 107 "1") 17 1 = Ok (def_x, def_y, def_xy)
       ∧ length def_x = 1%nat ∧ length def_y = 1%nat ∧ length def_xy = 1%nat)
  ∧ ∃ e, transform_row demo.lib (reverse_interp.n_el_of ["1"; "1"]) "linear"
           demo.centroids_x demo.centroids_y [0%float] [0%float] ["1"; "1"]
         = Err e.
Proof.
  split.
  - apply (proj1 (inverse_slicing_stays_in_range (replicate 107 "1"))
             ltac:(simpl; lia) 3%nat ltac:(lia)).
  - apply (proj2 (inverse_slicing_stays_in_range ["1"; "1"])
             ltac:(simpl; lia) demo.lib).
Defined.

(** ** Jobs that run to the end *)

Lemma stream_total (transform : list string → result (list cell))
    (path : string) (rows : list (list string)) :
  Forall (λ row, ∃ bf, transform row = Ok bf) rows →
  ∀ bg fs, ∃ bg' fs', stream transform path rows bg fs = (Ok bg', fs').
Proof.
  induction 1 as [| row rows [bf Hrow] _ IH]; intros bg fs; simpl; [eauto |].
  rewrite Hrow. destruct (_ && _); [| destruct (_ && _)]; apply IH.
Qed.

Lemma stream_Ok_all (transform : list string → result (list cell))
    (path : string) (rows : list (list string)) :
  ∀ bg fs bg' fs',
    stream transform path rows bg fs = (Ok bg', fs') →
    Forall (λ row, ∃ bf, transform row = Ok bf) rows.
Proof.
  induction rows as [| row rows IH]; intros bg fs bg' fs' H; [constructor |].
  simpl in H. destruct (transform row) as [bf | e] eqn:Hrow; [| discriminate].
  constructor; [eauto |].
  destruct (_ && _); [| destruct (_ && _)]; by eapply IH.
Qed.

Lemma interpolator_progress (L : Lib) (cfg : config) (infile : string)
    (grid : Z) (method : string) (x y : list float) (w : world)
    (grid_x grid_y : list float) (first : line) (ls : list line) :
  mesh_interp.mesh_gen grid = Some (grid_x, grid_y) →
  files w !! infile = Some (first :: ls) →
  mesh_interp.new_fname L cfg infile grid method ≠ infile →
  Forall (λ l, ∃ bf, transform_row L 564 method x y grid_x grid_y
                       (csv_fields L l) = Ok bf) ls →
  ∃ w', mesh_interp.interpolator L cfg infile grid method x y w
        = (Return (Some [("grid", CInt grid); ("method", CStr method);
                         ("file", CStr (stem L infile));
                         ("interpolation_duration",
                          CNum (elapsed_time L infile grid method))]), w').
Proof.
  intros Hmesh Hfile Hne Hrows. unfold mesh_interp.interpolator. cbv zeta.
  rewrite Hmesh. unfold open_reader.
  rewrite remove_if_present_lookup, decide_False, Hfile by done.
  cbn [mbind result_bind next fmap list_fmap].
  assert (Hrows' : Forall (λ row, ∃ bf, transform_row L 564 method x y grid_x
                                         grid_y row = Ok bf)
                     (csv_fields L <$> ls)) by (by apply Forall_fmap).
  destruct (stream_total _ (mesh_interp.new_fname L cfg infile grid method) _
              Hrows' []
              (remove_if_present (files w)
                 (mesh_interp.new_fname L cfg infile grid method)))
    as (bg & fs1 & Hstream).
  rewrite Hstream. eauto.
Qed.

(** X8. A forward job returns its result whenever the resolution is not
    negative, the input table has a first line, and every record after it
    can be transformed: nothing else makes it stop. *)
Theorem forward_job_returns (L : Lib) (cfg : config) (infile : string)
    (grid : Z) (method : string) (x y : list float) (w : world)
    (first : line) (ls : list line) :
  0 ≤ grid →
  files w !! infile = Some (first :: ls) →
  mesh_interp.new_fname L cfg infile grid method ≠ infile →
  (∀ grid_x grid_y, mesh_interp.mesh_gen grid = Some (grid_x, grid_y) →
     Forall (λ l, ∃ bf, transform_row L 564 method x y grid_x grid_y
                          (csv_fields L l) = Ok bf) ls) →
  ∃ r w', mesh_interp.interpolator L cfg infile grid method x y w
          = (Return (Some r), w').
Proof.
  intros Hgrid Hfile Hne Hrows.
  destruct (proj2 (mesh_gen_points_or_none grid) Hgrid) as (gx & gy & Hmesh).
  destruct (interpolator_progress L cfg infile grid method x y w gx gy first ls
              Hmesh Hfile Hne (Hrows _ _ Hmesh)) as [w' Hjob].
  eauto.
Qed.

Lemma demo_rows_transform (n : nat) (grid_x grid_y : list float) :
  Forall (λ l, ∃ bf, transform_row demo.lib 564 "linear" demo.centroids_x
                       demo.centroids_y grid_x grid_y (csv_fields demo.lib l)
                     = Ok bf)
    (replicate n (DataLine demo.run_564)).
Proof.
  apply Forall_replicate.
  unfold demo.run_564, csv_fields. rewrite fmap_replicate.
  apply demo_transform_row. lia.
Qed.

Lemma forward_job_returns_witness :
  ∃ r w', scenarios.batch_run = (Return (Some r), w').
Proof.
  apply (forward_job_returns demo.lib demo.cfg "x_train" 20 "linear"
           demo.centroids_x demo.centroids_y scenarios.batch_world
           (HeaderLine []) (replicate 100 (DataLine demo.run_564))).
  - lia.
  - apply lookup_singleton_eq.
  - intros H. vm_compute in H. discriminate.
  - intros grid_x grid_y _. apply demo_rows_transform.
Defined.

Lemma demo_batch_returns :
  ∃ r, scenarios.batch_run = (Return r, scenarios.batch_run.2).
Proof.
  destruct (mesh_interp.mesh_gen 20) as [[gx gy] |] eqn:Hmesh;
    [| vm_compute in Hmesh; discriminate].
  destruct (interpolator_progress demo.lib demo.cfg "x_train" 20 "linear"
              demo.centroids_x demo.centroids_y scenarios.batch_world gx gy
              (HeaderLine []) (replicate 100 (DataLine demo.run_564)))
    as [w' Hjob].
  - exact Hmesh.
  - apply lookup_singleton_eq.
  - intros H. vm_compute in H. discriminate.
  - apply demo_rows_transform.
  - unfold scenarios.batch_run. rewrite Hjob. eexists. reflexivity.
Qed.

Lemma full_batch_job_has_one_header_witness :
  ∃ cols rest,
    files scenarios.batch_run.2
      !! mesh_interp.new_fname demo.lib demo.cfg "x_train" 20 "linear"
    = Some (HeaderLine cols :: rest)
    ∧ header_lines rest = [].
Proof.
  destruct demo_batch_returns as [r Hrun].
  apply (full_batch_job_has_one_header demo.lib demo.cfg "x_train" 20 "linear"
           demo.centroids_x demo.centroids_y scenarios.batch_world
           scenarios.batch_run.2 r
           (HeaderLine [] :: replicate 100 (DataLine demo.run_564))).
  - apply lookup_singleton_eq.
  - unfold BUFF_TSHOLD. cbn [tail]. rewrite length_replicate. lia.
  - exact Hrun.
Defined.

(** X10. A forward job returns only when every record of its input table has at
    least 20 * (2 + 3 * 564) fields: the layout of 564 source elements is
    the only one it accepts, whatever the centroid file holds. *)
Theorem forward_job_requires_564_layout (L : Lib) (cfg : config)
    (infile : string) (grid : Z) (method : string) (x y : list float)
    (w w' : world) (r : option dict) (lines : list line) :
  files w !! infile = Some lines →
  mesh_interp.interpolator L cfg infile grid method x y w = (Return r, w') →
  Forall (λ l, (20 * (2 + 3 * 564) ≤ length (csv_fields L l))%nat) (tail lines).
Proof.
  intros Hlines Hjob.
  apply interpolator_Return in Hjob
    as (gx & gy & lines' & bg & fs1 & _ & Hlines' & _ & Hstream & _).
  rewrite Hlines in Hlines'. injection Hlines' as <-.
  apply stream_Ok_all in Hstream. rewrite Forall_forall in Hstream.
  apply Forall_forall. intros l Hl.
  destruct (Hstream (csv_fields L l)) as [bf Hrow];
    [by apply list_elem_of_fmap_2 |].
  by apply transform_row_needs_width in Hrow.
Qed.

Lemma forward_job_requires_564_layout_witness :
  Forall (λ l, (20 * (2 + 3 * 564) ≤ length (csv_fields demo.lib l))%nat)
    [DataLine demo.run_564].
Proof.
  apply (forward_job_requires_564_layout demo.lib demo.cfg "x_train" 20
           "linear" demo.centroids_x demo.centroids_y demo.forward_world
           demo.forward_run.2 (Some demo.forward_result)
           [HeaderLine []; DataLine demo.run_564]).
  - apply lookup_singleton_eq.
  - apply demo_forward_returns.
Defined.

(** ** Jobs that stop in the middle *)

Lemma stream_fails_after (transform : list string → result (list cell))
    (path : string) (good : list (list string)) (bad : list string)
    (rest : list (list string)) (e : exn) :
  Forall (λ row, ∃ bf, transform row = Ok bf) good →
  transform bad = Err e →
  ∀ bg fs, (length bg < BUFF_TSHOLD)%nat →
    ∃ fs' added,
      stream transform path (good ++ bad :: rest) bg fs = (Err e, fs')
      ∧ content fs' path = content fs path ++ added
      ∧ length (data_cells added)
        = (BUFF_TSHOLD * ((length bg + length good) / BUFF_TSHOLD))%nat
      ∧ ((length bg + length good < BUFF_TSHOLD)%nat → fs' = fs).
Proof.
  intros Hgood Hbad. unfold BUFF_TSHOLD.
  induction Hgood as [| row good [bf Hrow] _ IH]; intros bg fs Hbg;
    cbn [app stream length].
  - rewrite Hbad. exists fs, []. rewrite app_nil_r, Nat.add_0_r.
    rewrite Nat.div_small by done. done.
  - rewrite Hrow. cbv beta iota zeta.
    assert (Hlen : length (bg ++ [bf]) = S (length bg))
      by (rewrite length_app; simpl; lia).
    destruct (Nat.eqb_spec (length (bg ++ [bf])) BUFF_TSHOLD) as [Heq | Hne];
      unfold BUFF_TSHOLD in *; cbn [andb].
    + assert (Hdiv : ((length bg + S (length good)) / 100
                      = 1 + length good / 100)%nat).
      { replace (length bg + S (length good))%nat
          with (1 * 100 + length good)%nat by lia.
        by rewrite Nat.div_add_l. }
      rewrite Hdiv.
      destruct (isfile fs path); cbn [andb negb];
        match goal with
        | |- context [stream _ _ _ [] ?fs1] =>
          destruct (IH [] fs1) as (fs' & added & Hstream & Hcontent & Hcount & _);
            [cbn [length]; lia |]
        end;
        rewrite Hstream; unfold content in Hcontent at 2;
        rewrite lookup_to_csv in Hcontent; simpl in Hcontent;
        cbn [length Nat.add] in Hcount.
      * exists fs', ((DataLine <$> DataFrame (bg ++ [bf])) ++ added).
        split; [done |]. split; [by rewrite Hcontent, <- app_assoc |].
        split; [| lia].
        rewrite data_cells_app, data_cells_DataLine, length_app,
          length_DataFrame, Hcount. lia.
      * exists fs', (HeaderLine (columns (bg ++ [bf]))
                     :: (DataLine <$> DataFrame (bg ++ [bf])) ++ added).
        split; [done |]. split; [by rewrite Hcontent, <- app_assoc |].
        split; [| lia].
        change (data_cells (HeaderLine (columns (bg ++ [bf]))
                            :: (DataLine <$> DataFrame (bg ++ [bf])) ++ added))
          with (data_cells ((DataLine <$> DataFrame (bg ++ [bf])) ++ added)).
        rewrite data_cells_app, data_cells_DataLine, length_app,
          length_DataFrame, Hcount. lia.
    + destruct (IH (bg ++ [bf]) fs) as (fs' & added & Hstream & Hcontent & Hcount & Hsame);
        [lia |].
      exists fs', added. rewrite Hstream. split; [done |]. split; [done |].
      rewrite Hlen in Hcount, Hsame.
      replace (length bg + S (length good))%nat
        with (S (length bg) + length good)%nat by lia.
      split; [done | exact Hsame].
Qed.

(** X11. When the first record that cannot be transformed comes after [k] good
    ones, the forward job prints the error and exits with status 1; the
    batches of 100 already flushed stay on disk, so the output table holds
    [100 * (k / 100)] data rows, and no output table exists when [k < 100].
    The records of the unfinished batch are lost. *)
Theorem forward_job_failure_keeps_flushed_batches (L : Lib) (cfg : config)
    (infile : string) (grid : Z) (method : string) (x y : list float)
    (w : world) (grid_x grid_y : list float) (first : line)
    (good : list line) (bad : line) (rest : list line) (e : exn) :
  mesh_interp.mesh_gen grid = Some (grid_x, grid_y) →
  files w !! infile = Some (first :: good ++ bad :: rest) →
  mesh_interp.new_fname L cfg infile grid method ≠ infile →
  Forall (λ l, ∃ bf, transform_row L 564 method x y grid_x grid_y
                       (csv_fields L l) = Ok bf) good →
  transform_row L 564 method x y grid_x grid_y (csv_fields L bad) = Err e →
  ∃ w',
    mesh_interp.interpolator L cfg infile grid method x y w = (Exit 1, w')
    ∧ console w' = console w ++ [ErrInterp e]
    ∧ length (data_cells
                (content (files w')
                   (mesh_interp.new_fname L cfg infile grid method)))
      = (100 * (length good / 100))%nat
    ∧ ((length good < 100)%nat →
       files w' !! mesh_interp.new_fname L cfg infile grid method = None).
Proof.
  intros Hmesh Hfile Hne Hgood Hbad.
  unfold mesh_interp.interpolator. cbv zeta.
  set (path := mesh_interp.new_fname L cfg infile grid method) in *.
  rewrite Hmesh. unfold open_reader.
  rewrite remove_if_present_lookup, decide_False, Hfile by done.
  cbn [mbind result_bind]. rewrite fmap_cons, fmap_app, fmap_cons.
  cbn [next].
  assert (Hgood' : Forall (λ row, ∃ bf, transform_row L 564 method x y grid_x
                                          grid_y row = Ok bf)
                     (csv_fields L <$> good)) by (by apply Forall_fmap).
  destruct (stream_fails_after _ path _ _ (csv_fields L <$> rest) e Hgood' Hbad
              [] (remove_if_present (files w) path))
    as (fs' & added & Hstream & Hcontent & Hcount & Hsame);
    [unfold BUFF_TSHOLD; simpl; lia |].
  rewrite Hstream.
  assert (Hnone : remove_if_present (files w) path !! path = None)
    by (rewrite remove_if_present_lookup; by rewrite decide_True).
  eexists. split; [reflexivity |]. split; [done |]. cbn [files say].
  rewrite length_fmap in Hcount, Hsame. unfold BUFF_TSHOLD in *.
  cbn [length Nat.add] in Hcount, Hsame.
  split.
  - rewrite Hcontent. unfold content at 1. rewrite Hnone. exact Hcount.
  - intros Hlt. by rewrite (Hsame Hlt).
Qed.

Lemma forward_job_failure_keeps_flushed_batches_witness :
  ∃ w',
    mesh_interp.interpolator demo.lib demo.cfg "x_train" 20 "linear"
      demo.centroids_x demo.centroids_y scenarios.failing_world = (Exit 1, w')
    ∧ console w' = console scenarios.failing_world ++ [ErrInterp IndexError]
    ∧ length (data_cells
                (content (files w')
                   (mesh_interp.new_fname demo.lib demo.cfg "x_train" 20 "linear")))
      = (100 * (length [DataLine demo.run_564] / 100))%nat
    ∧ ((length [DataLine demo.run_564] < 100)%nat →
       files w' !! mesh_interp.new_fname demo.lib demo.cfg "x_train" 20 "linear"
       = None).
Proof.
  apply (forward_job_failure_keeps_flushed_batches demo.lib demo.cfg "x_train"
           20 "linear" demo.centroids_x demo.centroids_y
           scenarios.failing_world demo.grid_x demo.grid_y (HeaderLine [])
           [DataLine demo.run_564] (DataLine demo.run_2) [] IndexError).
  - apply demo_mesh_20.
  - apply lookup_singleton_eq.
  - intros H. vm_compute in H. discriminate.
  - apply (demo_rows_transform 1).
  - vm_compute. reflexivity.
Defined.

(** ** The metrics table of a sweep *)

Lemma interpolator_result_keys (L : Lib) (cfg : config) (infile : string)
    (grid : Z) (method : string) (x y : list float) (w w' : world)
    (r : option dict) :
  mesh_interp.interpolator L cfg infile grid method x y w = (Return r, w') →
  truthy r = true
  ∧ ∀ d, r = Some d →
      d.*1 = ["grid"; "method"; "file"; "interpolation_duration"].
Proof.
  unfold mesh_interp.interpolator. cbv zeta. intros H.
  destruct (mesh_interp.mesh_gen grid) as [[grid_x grid_y] |]; [| discriminate].
  destruct (open_reader L _ infile ≫= next) as [reader | e]; [| discriminate].
  destruct (stream _ _ _ _ _) as [[bg | e] fs1]; [| discriminate].
  injection H as <- _. split; [done |]. by intros d [= <-].
Qed.

Lemma inv_interpolator_result_keys (L : Lib) (cfg : config) (infile : string)
    (grid : Z) (method : string) (x y : list float) (w w' : world) (d : dict) :
  reverse_interp.inv_interpolator L cfg infile grid method x y w
  = (Return (Some d), w') →
  d.*1 = ["grid"; "method"; "r2"; "mae"; "mape"].
Proof.
  unfold reverse_interp.inv_interpolator. cbv zeta. intros H.
  destruct (isfile _ _); simpl in H; [| discriminate].
  destruct (mesh_interp.mesh_gen grid) as [[grid_x grid_y] |]; [| discriminate].
  destruct (array_eq_None_truth grid_x) as [[|] | e]; try discriminate.
  destruct (open_reader L _ _ ≫= next) as [reader | e]; [| discriminate].
  destruct (stream _ _ _ _ _) as [[bg | e] fs1]; [| discriminate].
  destruct (read_csv _ _ ≫= _) as [[[r2 mae] mape] | e]; [| discriminate].
  by injection H as <- _.
Qed.

(** What a sweep does to the metrics table, for any job that leaves the
    table alone and whose results all have the columns [keys]. *)
Lemma sweep_metrics_table
    (job : string → Z → string → world → outcome (option dict) * world)
    (metrics : string) (keys : list string) :
  (∀ file grid method w o w1,
     job file grid method w = (o, w1) →
     files w1 !! metrics = files w !! metrics) →
  (∀ file grid method w d w1,
     job file grid method w = (Return (Some d), w1) → d.*1 = keys) →
  ∀ jobs w o w',
    sweep job metrics jobs w = (o, w') →
    ∃ rows,
      (length rows ≤ length jobs)%nat
      ∧ (o = Return () →
         (∀ file grid method w r w1,
            job file grid method w = (Return r, w1) → truthy r = true) →
         length rows = length jobs)
      ∧ files w' !! metrics
        = match files w !! metrics, rows with
          | None, [] => None
          | None, _ :: _ => Some (HeaderLine keys :: (DataLine <$> rows))
          | Some old, _ => Some (old ++ (DataLine <$> rows))
          end.
Proof.
  intros Hframe Hkeys.
  induction jobs as [| [[grid method] file] jobs IH]; intros w o w' H;
    simpl in H.
  - injection H as <- <-. exists []. split; [done |]. split; [done |].
    destruct (files w !! metrics); [by rewrite app_nil_r | done].
  - destruct (job file grid method w) as [[result | e | code] w1] eqn:Hjob.
    + pose proof (Hframe _ _ _ _ _ _ Hjob) as Hsame.
      destruct (truthy result) eqn:Htruthy.
      * destruct result as [d |]; [| discriminate].
        pose proof (Hkeys _ _ _ _ _ _ Hjob) as Hd.
        apply IH in H as (rows & Hlen & Hall & Hfile).
        exists (d.*2 :: rows). split; [simpl; lia |]. split.
        { intros Ho Htrue. simpl. f_equal. by apply Hall. }
        rewrite Hfile. unfold say, append_metrics. cbn [files].
        change (default [] (Some d)) with d. rewrite lookup_to_csv. unfold content, isfile. rewrite Hsame, Hd.
        destruct (files w !! metrics) as [old |] eqn:Hold.
        -- rewrite bool_decide_eq_true_2 by eauto. simpl.
           by rewrite <- app_assoc.
        -- rewrite bool_decide_eq_false_2 by (by intros [? ?]). done.
      * apply IH in H as (rows & Hlen & Hall & Hfile).
        exists rows. split; [simpl; lia |]. split.
        { intros Ho Htrue. rewrite (Htrue _ _ _ _ _ _ Hjob) in Htruthy.
          discriminate. }
        by rewrite Hfile, Hsame.
    + injection H as <- <-. exists []. split; [simpl; lia |]. split; [done |].
      rewrite (Hframe _ _ _ _ _ _ Hjob).
      destruct (files w !! metrics); [by rewrite app_nil_r | done].
    + injection H as <- <-. exists []. split; [simpl; lia |]. split; [done |].
      rewrite (Hframe _ _ _ _ _ _ Hjob).
      destruct (files w !! metrics); [by rewrite app_nil_r | done].
Qed.

(** X12. However a sweep ends, its metrics table either does not exist or is
    one header line followed by one row per job that returned a result: at
    most 18 rows for the forward sweep (exactly 18 when it runs to the end),
    at most 9 for the inverse sweep.  The table of an earlier run is
    removed first, and the output tables are assumed to be other files. *)
Theorem sweep_metrics_table_has_one_header (L : Lib) (cfg : config)
    (w w' : world) (o : outcome unit) :
  ((∀ file grid method,
      mesh_interp.new_fname L cfg file grid method ≠ METRICS cfg) →
   mesh_interp.main L cfg w = (o, w') →
   ∃ rows,
     (length rows ≤ 18)%nat
     ∧ (o = Return () → length rows = 18%nat)
     ∧ files w' !! METRICS cfg
       = match rows with
         | [] => None
         | _ :: _ =>
           Some (HeaderLine ["grid"; "method"; "file"; "interpolation_duration"]
                 :: (DataLine <$> rows))
         end)
  ∧ ((∀ file grid method,
        reverse_interp.new_fname_inv L cfg file grid method ≠ REV_METRICS cfg) →
     reverse_interp.main L cfg w = (o, w') →
     ∃ rows,
       (length rows ≤ 9)%nat
       ∧ files w' !! REV_METRICS cfg
         = match rows with
           | [] => None
           | _ :: _ =>
             Some (HeaderLine ["grid"; "method"; "r2"; "mae"; "mape"]
                   :: (DataLine <$> rows))
           end).
Proof.
  split; intros Hpaths H.
  - unfold mesh_interp.main in H. cbv zeta in H.
    set (w0 := {| files := remove_if_present (files w) (METRICS cfg);
                  console := console w |}) in *.
    assert (Hnone : files w0 !! METRICS cfg = None).
    { unfold w0. cbn [files]. rewrite remove_if_present_lookup.
      by rewrite decide_True. }
    destruct (read_centroids L _ _) as [[x y] | e].
    + destruct (sweep _ _ _ _) as [o1 w1] eqn:Hsweep.
      apply (sweep_metrics_table _ _
               ["grid"; "method"; "file"; "interpolation_duration"]) in Hsweep
        as (rows & Hlen & Hall & Hfile).
      * rewrite Hnone in Hfile. exists rows.
        change (length (jobs_of (mesh_interp.IN_FILES cfg))) with 18%nat in *.
        destruct o1 as [[] | e | code]; injection H as <- <-;
          (split; [done |]); (split; [| exact Hfile]); try done.
        intros _. apply Hall; [done |].
        intros file grid method w2 r w3 Hjob.
        by apply interpolator_result_keys in Hjob as [Htrue _].
      * intros file grid method w2 o2 w3 Hjob.
        eapply interpolator_frame; [exact Hjob |]. by apply not_eq_sym.
      * intros file grid method w2 d w3 Hjob.
        apply interpolator_result_keys in Hjob as [_ Hd]. by apply Hd.
    + injection H as <- <-. exists []. split; [simpl; lia |]. split; [done |].
      exact Hnone.
  - unfold reverse_interp.main in H. cbv zeta in H.
    set (w0 := {| files := remove_if_present (files w) (REV_METRICS cfg);
                  console := console w |}) in *.
    assert (Hnone : files w0 !! REV_METRICS cfg = None).
    { unfold w0. cbn [files]. rewrite remove_if_present_lookup.
      by rewrite decide_True. }
    destruct (read_centroids L _ _) as [[x y] | e].
    + destruct (sweep _ _ _ _) as [o1 w1] eqn:Hsweep.
      apply (sweep_metrics_table _ _ ["grid"; "method"; "r2"; "mae"; "mape"])
        in Hsweep as (rows & Hlen & _ & Hfile).
      * rewrite Hnone in Hfile. exists rows.
        change (length (jobs_of (reverse_interp.IN_FILES cfg))) with 9%nat in *.
        destruct o1 as [[] | e | code]; injection H as <- <-;
          (split; [done |]); exact Hfile.
      * intros file grid method w2 o2 w3 Hjob.
        eapply inv_interpolator_frame; [exact Hjob |]. by apply not_eq_sym.
      * intros file grid method w2 d w3 Hjob.
        by apply inv_interpolator_result_keys in Hjob.
    + injection H as <- <-. exists []. split; [simpl; lia |]. exact Hnone.
Qed.

Lemma demo_paths_differ (suffix : string) (file : string) (grid : Z)
    (method : string) (metrics : string) :
  metrics = "interp_metrics.csv" ∨ metrics = "rev_interp_metrics.csv" →
  join demo.lib (DATA demo.cfg)
    (stem demo.lib file +:+ "_" +:+ pretty grid +:+ "_" +:+ method +:+ suffix)
  ≠ metrics.
Proof. intros [-> | ->]; simpl; discriminate. Qed.

Lemma sweep_metrics_table_has_one_header_witness :
  (∃ rows,
     (length rows ≤ 18)%nat
     ∧ (scenarios.forward_sweep.1 = Return () → length rows = 18%nat)
     ∧ files scenarios.forward_sweep.2 !! METRICS demo.cfg
       = match rows with
         | [] => None
         | _ :: _ =>
           Some (HeaderLine ["grid"; "method"; "file"; "interpolation_duration"]
                 :: (DataLine <$> rows))
         end)
  ∧ ∃ rows,
      (length rows ≤ 9)%nat
      ∧ files scenarios.inverse_sweep.2 !! REV_METRICS demo.cfg
        = match rows with
          | [] => None
          | _ :: _ =>
            Some (HeaderLine ["grid"; "method"; "r2"; "mae"; "mape"]
                  :: (DataLine <$> rows))
          end.
Proof.
  split.
  - apply (proj1 (sweep_metrics_table_has_one_header demo.lib demo.cfg
                    scenarios.sweep_world scenarios.forward_sweep.2
                    scenarios.forward_sweep.1)).
    + intros file grid method. apply (demo_paths_differ ".csv"). by left.
    + unfold scenarios.forward_sweep.
      by destruct (mesh_interp.main _ _ _).
  - apply (proj2 (sweep_metrics_table_has_one_header demo.lib demo.cfg
                    scenarios.sweep_world scenarios.inverse_sweep.2
                    scenarios.inverse_sweep.1)).
    + intros file grid method. apply (demo_paths_differ "_inv.csv"). by right.
    + unfold scenarios.inverse_sweep.
      by destruct (reverse_interp.main _ _ _).
Defined.

(** ** Forward, then inverse *)

(** X13. The inverse transformer recovers the point count of the grid from the
    width of the forward table: on every data row a finished forward job
    wrote, read back as csv fields, the derived element count is the number
    of grid points. *)
Theorem inverse_recovers_grid_size (L : Lib) (cfg : config) (infile : string)
    (grid : Z) (method : string) (x y : list float) (w w' : world)
    (r : option dict) (grid_x grid_y : list float) :
  Rbf_shape_ok L →
  mesh_interp.mesh_gen grid = Some (grid_x, grid_y) →
  mesh_interp.interpolator L cfg infile grid method x y w = (Return r, w') →
  Forall (λ bf, reverse_interp.n_el_of (csv_fields L (DataLine bf))
                = length grid_x)
    (data_cells
       (content (files w') (mesh_interp.new_fname L cfg infile grid method))).
Proof.
  intros Hshape Hmesh Hjob.
  apply interpolator_Return in Hjob
    as (gx & gy & lines & bg & fs1 & Hmesh' & _ & Hnone & Hstream & -> & _).
  rewrite Hmesh in Hmesh'. injection Hmesh' as <- <-.
  pose proof (job_records_width _ _ _ _ _ _ _
                (transform_row_width L _ method x y grid_x grid_y Hshape)
                Hnone Hstream) as Hwidth.
  eapply Forall_impl; [exact Hwidth |].
  intros bf Hbf. apply n_el_of_layout.
  cbn [csv_fields]. by rewrite length_fmap.
Qed.

Lemma inverse_recovers_grid_size_witness :
  Forall (λ bf, reverse_interp.n_el_of (csv_fields demo.lib (DataLine bf))
                = length demo.grid_x)
    (data_cells
       (content (files demo.forward_run.2)
          (mesh_interp.new_fname demo.lib demo.cfg "x_train" 20 "linear"))).
Proof.
  apply (inverse_recovers_grid_size demo.lib demo.cfg "x_train" 20 "linear"
           demo.centroids_x demo.centroids_y demo.forward_world
           demo.forward_run.2 (Some demo.forward_result)
           demo.grid_x demo.grid_y demo_Rbf_shape_ok).
  - apply demo_mesh_20.
  - apply demo_forward_returns.
Defined.

(** The output table of a forward job on fewer than 100 records: the
    records alone, without a header line. *)
Lemma short_job_table (L : Lib) (cfg : config) (infile : string) (grid : Z)
    (method : string) (x y : list float) (w w' : world) (r : option dict)
    (lines : list line) :
  files w !! infile = Some lines →
  (length (tail lines) < BUFF_TSHOLD)%nat →
  mesh_interp.interpolator L cfg infile grid method x y w = (Return r, w') →
  ∃ bg, length bg = length (tail lines)
        ∧ files w' !! mesh_interp.new_fname L cfg infile grid method
          = Some (DataLine <$> DataFrame bg).
Proof.
  intros Hlines Hlt Hjob.
  apply interpolator_Return in Hjob
    as (gx & gy & lines' & bg & fs1 & _ & Hlines' & Hnone & Hstream & Hfiles & _).
  rewrite Hlines in Hlines'. injection Hlines' as <-.
  apply stream_short in Hstream as [-> Hbg]; [| by rewrite length_fmap].
  rewrite length_fmap in Hbg. exists bg. split; [done |].
  rewrite Hfiles. unfold final_flush. rewrite lookup_to_csv.
  unfold content. by rewrite Hnone.
Qed.

(** X14. A table of fewer than 100 records cannot come back whole.  The
    forward job writes it without a header line and the inverse job skips
    the first line of what it reads, so whatever the inverse job then does,
    its table never holds more lines than the original had records but one;
    and when the original has at most one record the inverse job does not
    return a result (it finds an empty forward table, or writes an empty
    table of its own, which [pd.read_csv] does not read). *)
Theorem short_table_first_record_is_skipped (L : Lib) (cfg : config)
    (infile : string) (grid : Z) (method : string) (x y : list float)
    (w w1 w2 : world) (r : option dict) (o : outcome (option dict))
    (lines : list line) :
  files w !! infile = Some lines →
  (length (table_rows lines) < BUFF_TSHOLD)%nat →
  mesh_interp.interpolator L cfg infile grid method x y w = (Return r, w1) →
  reverse_interp.inv_interpolator L cfg infile grid method x y w1 = (o, w2) →
  (length (content (files w2)
             (reverse_interp.new_fname_inv L cfg infile grid method))
   ≤ Nat.pred (length (table_rows lines)))%nat
  ∧ ((length (table_rows lines) ≤ 1)%nat → ∀ r', o ≠ Return (Some r')).
Proof.
  intros Hlines Hlt Hfwd Hinv. unfold table_rows in *.
  destruct (short_job_table _ _ _ _ _ _ _ _ _ _ _ Hlines Hlt Hfwd)
    as (bg & Hbg & Htable).
  rewrite <- Hbg in *. clear Hbg Hlines Hfwd.
  unfold reverse_interp.inv_interpolator in Hinv. cbv zeta in Hinv.
  set (inv := reverse_interp.new_fname_inv L cfg infile grid method) in *.
  set (fs0 := remove_if_present (files w1) inv) in *.
  assert (Hnone : fs0 !! inv = None).
  { unfold fs0. rewrite remove_if_present_lookup. by rewrite decide_True. }
  assert (Hempty : content fs0 inv = []) by (unfold content; by rewrite Hnone).
  assert (Hearly : ∀ o' c,
    (o', {| files := fs0; console := c |}) = (o, w2) →
    (∀ r', o' ≠ Return (Some r')) →
    (length (content (files w2) inv) ≤ Nat.pred (length bg))%nat
    ∧ ((length bg ≤ 1)%nat → ∀ r', o ≠ Return (Some r'))).
  { intros o' c [= <- <-] Ho. cbn [files]. rewrite Hempty. simpl.
    split; [lia | done]. }
  destruct (isfile fs0 _); cbn [negb] in Hinv;
    [| by apply (Hearly _ _ Hinv)].
  destruct (mesh_interp.mesh_gen grid) as [[grid_x grid_y] |];
    [| by apply (Hearly _ _ Hinv)].
  destruct (array_eq_None_truth grid_x) as [[|] | e];
    [by apply (Hearly _ _ Hinv) | | by apply (Hearly _ _ Hinv)].
  destruct (open_reader L fs0 _ ≫= next) as [reader | e] eqn:Hopen;
    [| by apply (Hearly _ _ Hinv)].
  apply open_next_Ok in Hopen as (lines' & Hlines' & Hne & ->).
  unfold fs0 in Hlines'. rewrite remove_if_present_lookup in Hlines'.
  case_decide; [discriminate |].
  rewrite Htable in Hlines'. injection Hlines' as <-.
  assert (Hrows : length (csv_fields L <$> tail (DataLine <$> DataFrame bg))
                  = Nat.pred (length bg)).
  { rewrite length_fmap, <- (length_DataFrame bg),
      <- (length_fmap DataLine (DataFrame bg)).
    by destruct (DataLine <$> DataFrame bg). }
  assert (Hshort : (length (csv_fields L <$> tail (DataLine <$> DataFrame bg))
                    < BUFF_TSHOLD)%nat) by (rewrite Hrows; lia).
  destruct (stream _ _ _ _ _) as [[bg' | e] fs1] eqn:Hstream.
  2: { apply stream_short_writes_nothing in Hstream as ->; [| exact Hshort].
       by apply (Hearly _ _ Hinv). }
  apply stream_short in Hstream as [-> Hbg']; [| exact Hshort].
  cbn [length Nat.add] in Hbg'. rewrite Hrows in Hbg'.
  assert (Hlen : length (content (final_flush fs0 inv bg') inv)
                 = Nat.pred (length bg)).
  { rewrite content_final_flush, Hempty. cbn [app].
    by rewrite length_fmap, length_DataFrame. }
  assert (Hread : (length bg ≤ 1)%nat →
                  read_csv (final_flush fs0 inv bg') inv = Err EmptyDataError).
  { intros Hle. destruct bg' as [| ? ?]; [| simpl in Hbg'; lia].
    unfold read_csv, final_flush. rewrite lookup_to_csv, Hempty. reflexivity. }
  destruct (read_csv _ infile) as [ori | e] eqn:Hori; cbn [mbind result_bind] in Hinv.
  2: { injection Hinv as <- <-. cbn [files]. rewrite Hlen.
       split; [lia | done]. }
  destruct (read_csv _ inv) as [predict | e] eqn:Hpredict;
    cbn [mbind result_bind] in Hinv.
  2: { injection Hinv as <- <-. cbn [files]. rewrite Hlen.
       split; [lia | done]. }
  destruct (scores L ori predict) as [[[r2 mae] mape] | e];
    injection Hinv as <- <-; unfold say; cbn [files]; rewrite Hlen;
    (split; [lia |]); [| done].
  intros Hle. discriminate (Hread Hle).
Qed.

Lemma demo_forward_run_1_returns :
  scenarios.forward_run_1
  = (Return (Some [("grid", CInt 1); ("method", CStr "linear");
                   ("file", CStr "x_train");
                   ("interpolation_duration", CNum 0%float)]),
     scenarios.forward_run_1.2).
Proof.
  apply pair_fst_eq. unfold scenarios.forward_run_1.
  destruct (demo_transform_row 564 demo.centroids_x demo.centroids_y
              [0%float] [0%float]) as [bf Hbf]; [lia |].
  apply (interpolator_one_record demo.lib demo.cfg "x_train" 1 "linear"
           demo.centroids_x demo.centroids_y demo.forward_world
           [0%float] [0%float] (HeaderLine []) (DataLine demo.run_564) bf).
  - vm_compute. reflexivity.
  - apply lookup_singleton_eq.
  - intros H. vm_compute in H. discriminate.
  - unfold demo.run_564, csv_fields. rewrite fmap_replicate. exact Hbf.
Qed.

Lemma short_table_first_record_is_skipped_witness :
  (length (content (files scenarios.round_trip_1.2)
             (reverse_interp.new_fname_inv demo.lib demo.cfg "x_train" 1
                "linear"))
   ≤ 0)%nat
  ∧ ∀ r', scenarios.round_trip_1.1 ≠ Return (Some r').
Proof.
  destruct (short_table_first_record_is_skipped demo.lib demo.cfg "x_train" 1
              "linear" demo.centroids_x demo.centroids_y demo.forward_world
              scenarios.forward_run_1.2 scenarios.round_trip_1.2
              (Some [("grid", CInt 1); ("method", CStr "linear");
                     ("file", CStr "x_train");
                     ("interpolation_duration", CNum 0%float)])
              scenarios.round_trip_1.1
              [HeaderLine []; DataLine demo.run_564]) as [Hlen Hnever].
  - apply lookup_singleton_eq.
  - unfold BUFF_TSHOLD, table_rows. cbn [tail length]. lia.
  - apply demo_forward_run_1_returns.
  - apply surjective_pairing.
  - split; [exact Hlen |]. apply Hnever.
    unfold table_rows. cbn [tail length]. lia.
Defined.

(** ** Fields beyond the layout *)






(** ** An inverse sweep with nothing to invert *)

Lemma sweep_all_skipped (L : Lib) (cfg : config) (x y : list float)
    (metrics : string) :
  ∀ jobs w,
    (∀ grid method file,
       (grid, method, file) ∈ jobs →
       files w !! mesh_interp.new_fname L cfg file grid method = None) →
    ∃ fs',
      sweep (λ file grid method,
               reverse_interp.inv_interpolator L cfg file grid method x y)
        metrics jobs w
      = (Return (),
         {| files := fs';
            console := console w ++ replicate (length jobs) NoInterpFile |})
      ∧ ∀ p, fs' !! p = None ∨ fs' !! p = files w !! p.
Proof.
  induction jobs as [| [[grid method] file] jobs IH]; intros w Hmissing.
  - exists (files w). simpl. rewrite app_nil_r. split; [by destruct w | by right].
  - cbn [sweep]. unfold reverse_interp.inv_interpolator at 1. cbv zeta.
    set (fs0 := remove_if_present (files w)
                  (reverse_interp.new_fname_inv L cfg file grid method)).
    assert (Hfs0 : ∀ p, fs0 !! p = None ∨ fs0 !! p = files w !! p).
    { intros p. unfold fs0. rewrite remove_if_present_lookup.
      case_decide; [by left | by right]. }
    replace (isfile fs0 (mesh_interp.new_fname L cfg file grid method))
      with false.
    2: { symmetry. apply isfile_false.
         destruct (Hfs0 (mesh_interp.new_fname L cfg file grid method))
           as [-> | ->]; [done |].
         apply Hmissing. left. }
    cbn [negb truthy].
    destruct (IH (say NoInterpFile fs0 w)) as (fs' & Hsweep & Hfs').
    + intros g m f Hin. cbn [say files].
      destruct (Hfs0 (mesh_interp.new_fname L cfg f g m)) as [-> | ->];
        [done |].
      apply Hmissing. by right.
    + exists fs'. rewrite Hsweep. cbn [say files console length replicate].
      rewrite <- app_assoc. split; [done |].
      intros p. destruct (Hfs' p) as [-> | ->]; [by left |].
      cbn [say files]. apply Hfs0.
Qed.

(** X16. When none of the forward tables exists, the inverse sweep runs to the
    end: it prints the warning once per job, nine times, then the total
    time; it creates no metrics table and writes no file (stale inverse
    tables and the old metrics table are removed, nothing else changes). *)
Theorem inverse_sweep_with_nothing_to_invert (L : Lib) (cfg : config)
    (w : world) (x y : list float) :
  read_centroids L (remove_if_present (files w) (REV_METRICS cfg)) (INT_P cfg)
  = Ok (x, y) →
  (∀ grid method,
     files w !! mesh_interp.new_fname L cfg (X_TRAIN cfg) grid method = None) →
  ∃ w',
    reverse_interp.main L cfg w = (Return (), w')
    ∧ console w' = console w ++ replicate 9 NoInterpFile ++ [TotalElapsed]
    ∧ files w' !! REV_METRICS cfg = None
    ∧ ∀ p, files w' !! p = None ∨ files w' !! p = files w !! p.
Proof.
  intros Hcentroids Hmissing. unfold reverse_interp.main. cbv zeta.
  rewrite Hcentroids.
  set (w0 := {| files := remove_if_present (files w) (REV_METRICS cfg);
                console := console w |}).
  assert (Hw0 : ∀ p, files w0 !! p = None ∨ files w0 !! p = files w !! p).
  { intros p. unfold w0. cbn [files]. rewrite remove_if_present_lookup.
    case_decide; [by left | by right]. }
  destruct (sweep_all_skipped L cfg x y (REV_METRICS cfg)
              (jobs_of (reverse_interp.IN_FILES cfg)) w0)
    as (fs' & Hsweep & Hfs').
  - intros grid method file Hin.
    assert (Hfile : file = X_TRAIN cfg).
    { unfold jobs_of, reverse_interp.IN_FILES in Hin.
      apply list_elem_of_bind in Hin as (g & Hin & _).
      apply list_elem_of_bind in Hin as (m & Hin & _).
      apply list_elem_of_bind in Hin as (f & Hin & Hf).
      apply list_elem_of_singleton in Hin, Hf. by injection Hin as _ _ ->. }
    subst file.
    destruct (Hw0 (mesh_interp.new_fname L cfg (X_TRAIN cfg) grid method))
      as [-> | ->]; [done | apply Hmissing].
  - rewrite Hsweep. eexists. split; [reflexivity |].
    cbn [say files console].
    change (length (jobs_of (reverse_interp.IN_FILES cfg))) with 9%nat.
    split; [by rewrite <- app_assoc |]. split.
    + destruct (Hfs' (REV_METRICS cfg)) as [-> | ->]; [done |].
      unfold w0. cbn [files]. rewrite remove_if_present_lookup.
      by rewrite decide_True.
    + intros p. destruct (Hfs' p) as [-> | ->]; [by left | apply Hw0].
Qed.

Lemma inverse_sweep_with_nothing_to_invert_witness :
  ∃ w',
    reverse_interp.main demo.lib demo.cfg scenarios.sweep_world = (Return (), w')
    ∧ console w' = console scenarios.sweep_world
                   ++ replicate 9 NoInterpFile ++ [TotalElapsed]
    ∧ files w' !! REV_METRICS demo.cfg = None
    ∧ ∀ p, files w' !! p = None
           ∨ files w' !! p = files scenarios.sweep_world !! p.
Proof.
  apply (inverse_sweep_with_nothing_to_invert demo.lib demo.cfg
           scenarios.sweep_world [0%float; 1%float] [1%float; 0%float]).
  - vm_compute. reflexivity.
  - intros grid method. unfold scenarios.sweep_world. cbn [files].
    rewrite lookup_insert_ne by (intros H; simpl in H; discriminate).
    apply lookup_singleton_ne. intros H. simpl in H. discriminate.
Defined.
